(** * house-duties: the payment service, embedded and verified

    Shallow embedding of [src/services/paymentService.ts] (class
    [PaymentService]) together with the parts of the platform it runs on:

    - [JSDate]: the ECMAScript [Date] constructor called with numeric
      components ([MakeDay], [MakeTime], [MakeDate]), on integer time values
      in milliseconds;
    - [Prisma]: the two tables of the migration ([bills], [payments]) as a
      store, with the queries the service issues ([create], [findMany],
      [findFirst], [update], [updateMany], [delete]) in a state-and-error
      monad;
    - [PaymentService]: the methods of the class that write payments or
      compute the monthly figures, one definition each, under the names of
      the source.

    Amounts are JavaScript numbers, i.e. IEEE 754 binary64 values: they are
    modelled by Rocq's primitive [float], whose operations are the same
    binary64 operations (round to nearest, ties to even).

    Time values are local-time milliseconds.  The process is taken to run in
    a zone with a fixed offset from UTC, so that the conversion applied by
    [new Date] shifts every constructed instant by one constant and leaves
    all comparisons between them unchanged.  Time values are taken within the
    range in which ECMAScript's [TimeClip] is the identity. *)

From Stdlib Require Import String ZArith List Bool Lia Floats Permutation.
From Stdlib Require Import Sorted.
From Equations Require Import Equations.
Import ListNotations.

Set Warnings "-inexact-float".
Local Open Scope Z_scope.

(* ===================================================================== *)
(** * ECMAScript dates *)
(* ===================================================================== *)

Module JSDate.

Definition msPerDay : Z := 86400000.
Definition msPerHour : Z := 3600000.
Definition msPerMinute : Z := 60000.
Definition msPerSecond : Z := 1000.

(** ECMA-262, "Days in Year". *)
Definition DaysInYear (y : Z) : Z :=
  if negb (y mod 4 =? 0) then 365
  else if negb (y mod 100 =? 0) then 366
  else if negb (y mod 400 =? 0) then 365
  else 366.

Definition InLeapYear (y : Z) : Z :=
  if DaysInYear y =? 366 then 1 else 0.

(** Day number of the first day of year [y] (day 0 is 1 January 1970). *)
Definition DayFromYear (y : Z) : Z :=
  365 * (y - 1970) + (y - 1969) / 4 - (y - 1901) / 100 + (y - 1601) / 400.

(** Number of days of year [y] that precede month [mn] (0 = January). *)
Definition DaysBeforeMonth (y mn : Z) : Z :=
  let leap := InLeapYear y in
  match mn with
  | 0 => 0
  | 1 => 31
  | 2 => 59 + leap
  | 3 => 90 + leap
  | 4 => 120 + leap
  | 5 => 151 + leap
  | 6 => 181 + leap
  | 7 => 212 + leap
  | 8 => 243 + leap
  | 9 => 273 + leap
  | 10 => 304 + leap
  | _ => 334 + leap
  end.

(** Number of days of month [mn] (0 = January) of year [y]. *)
Definition DaysInMonth (y mn : Z) : Z :=
  match mn with
  | 1 => 28 + InLeapYear y
  | 3 | 5 | 8 | 10 => 30
  | _ => 31
  end.

(** ECMA-262 [MakeDay]: months outside 0..11 carry into the year, and the
    day of the month is added without any range check. *)
Definition MakeDay (year month date : Z) : Z :=
  let ym := year + month / 12 in
  let mn := month mod 12 in
  DayFromYear ym + DaysBeforeMonth ym mn + date - 1.

Definition MakeTime (hour min sec ms : Z) : Z :=
  hour * msPerHour + min * msPerMinute + sec * msPerSecond + ms.

Definition MakeDate (day time : Z) : Z := day * msPerDay + time.

(** A time value: milliseconds, local time. *)
Definition Date : Type := Z.

(** The constructor reads a year in 0..99 as 1900..1999. *)
Definition full_year (year : Z) : Z :=
  if (0 <=? year) && (year <=? 99) then 1900 + year else year.

(** [new Date(year, monthIndex, day, hours, minutes, seconds)]. *)
Definition new_Date6 (year monthIndex day hours minutes seconds : Z) : Date :=
  let yr := full_year year in
  MakeDate (MakeDay yr monthIndex day) (MakeTime hours minutes seconds 0).

(** [new Date(year, monthIndex, day)]. *)
Definition new_Date (year monthIndex day : Z) : Date :=
  new_Date6 year monthIndex day 0 0 0.

End JSDate.

(* ===================================================================== *)
(** * [calculatePreviousMonths] *)
(* ===================================================================== *)

Record YearMonth : Type := mkYearMonth { ym_year : Z; ym_month : Z }.

(** The inner loop
    [while (targetMonth < 1) { targetMonth += 12; targetYear -= 1; }]. *)
Equations? year_boundary (targetMonth targetYear : Z) : YearMonth
  by wf (Z.to_nat (1 - targetMonth)) lt :=
  year_boundary targetMonth targetYear with Z_lt_dec targetMonth 1 => {
    | left Hlt := year_boundary (targetMonth + 12) (targetYear - 1);
    | right _ := mkYearMonth targetYear targetMonth }.
Proof.
  change (Z.to_nat (1 - (targetMonth + 12)) < Z.to_nat (1 - targetMonth))%nat.
  lia.
Qed.

(** The outer loop [for (let i = count - 1; i >= 0; i--)], with the array
    [months] built so far. *)
Equations? months_loop (year month i : Z) (months : list YearMonth)
  : list YearMonth by wf (Z.to_nat (i + 1)) lt :=
  months_loop year month i months with Z_ge_dec i 0 => {
    | left Hge :=
        months_loop year month (i - 1)
          (months ++ [year_boundary (month - i) year]);
    | right _ := months }.
Proof.
  change (Z.to_nat (i - 1 + 1) < Z.to_nat (i + 1))%nat.
  lia.
Qed.

Definition calculatePreviousMonths (year month count : Z) : list YearMonth :=
  months_loop year month (count - 1) [].

(** The calendar month immediately before a given one (specification side). *)
Definition month_before (p : YearMonth) : YearMonth :=
  if ym_month p =? 1 then mkYearMonth (ym_year p - 1) 12
  else mkYearMonth (ym_year p) (ym_month p - 1).

(* ===================================================================== *)
(** * The database: tables, errors, queries *)
(* ===================================================================== *)

Inductive BillType : Type :=
  RENT | ELECTRICITY | WATER | GAS | INTERNET | PHONE | OTHER.

Inductive PaymentStatus : Type := PENDING | PAID | OVERDUE.

Definition PaymentStatus_eqb (a b : PaymentStatus) : bool :=
  match a, b with
  | PENDING, PENDING | PAID, PAID | OVERDUE, OVERDUE => true
  | _, _ => false
  end.

(** Primary keys are UUID texts generated by the database; only their
    identity matters, and they are modelled by numbers handed out in
    sequence. *)
Definition Id : Type := nat.

(** A row of table [bills].  The bookkeeping columns [createdAt] and
    [updatedAt] of both tables are left out: no method of the service reads
    or selects on them. *)
Module Bill.
Record t : Type := mk {
  id : Id;
  name : string;
  type : BillType;
  amount : float;
  dueDay : Z;
  description : option string;
  active : bool
}.
End Bill.

(** A row of table [payments]. *)
Module Payment.
Record t : Type := mk {
  id : Id;
  billId : Id;
  amount : float;
  status : PaymentStatus;
  dueDate : JSDate.Date;
  paidDate : option JSDate.Date;
  notes : option string
}.
End Payment.

(** [Payment & { bill: Bill }], the row shape of a query with
    [include: { bill: true }].  The foreign key of [payments] guarantees
    that the owning bill exists; the join is modelled by a lookup. *)
Record PaymentWithBill : Type := mkPaymentWithBill {
  pwb_payment : Payment.t;
  pwb_bill : option Bill.t
}.

Record Store : Type := mkStore {
  bills : list Bill.t;
  payments : list Payment.t;
  next_id : Id
}.

Inductive PrismaError : Type :=
| RecordNotFound
| ForeignKeyViolation.

Inductive result (A : Type) : Type :=
| Ok (a : A)
| Err (e : PrismaError).
Arguments Ok {A} a.
Arguments Err {A} e.

(** A database action: it returns a value or throws, and leaves a store
    behind in both cases (writes made before a throw stay). *)
Definition db (A : Type) : Type := Store -> result A * Store.

Definition ret {A : Type} (a : A) : db A := fun s => (Ok a, s).

Definition bind {A B : Type} (m : db A) (k : A -> db B) : db B :=
  fun s =>
    match m s with
    | (Ok a, s') => k a s'
    | (Err e, s') => (Err e, s')
    end.

Notation "x <- m ;; k" := (bind m (fun x => k))
  (at level 61, m at next level, right associativity).

(** [for (const x of xs) { acc = body(acc, x) }] with awaited calls. *)
Fixpoint for_of {A B : Type} (xs : list A) (body : B -> A -> db B) (acc : B)
  : db B :=
  match xs with
  | [] => ret acc
  | x :: rest => acc' <- body acc x ;; for_of rest body acc'
  end.

(** ** Ordering rows by [dueDate] ascending *)

Fixpoint insert_by_dueDate (p : Payment.t) (l : list Payment.t)
  : list Payment.t :=
  match l with
  | [] => [p]
  | q :: rest =>
      if Payment.dueDate p <? Payment.dueDate q then p :: l
      else q :: insert_by_dueDate p rest
  end.

Definition orderBy_dueDate_asc (l : list Payment.t) : list Payment.t :=
  fold_left (fun sorted p => insert_by_dueDate p sorted) l [].

(** ** Queries *)

Module Prisma.

(** [prisma.bill.findMany({ where })]. *)
Definition bill_findMany (where_ : Bill.t -> bool) : db (list Bill.t) :=
  fun s => (Ok (filter where_ (bills s)), s).

Definition bill_lookup (s : Store) (i : Id) : option Bill.t :=
  find (fun b => Nat.eqb (Bill.id b) i) (bills s).

Definition include_bill (s : Store) (p : Payment.t) : PaymentWithBill :=
  mkPaymentWithBill p (bill_lookup s (Payment.billId p)).

(** The columns a [create] call may supply; [status] defaults to
    PENDING and [paidDate] to NULL. *)
Record CreateData : Type := mkCreateData {
  c_billId : Id;
  c_amount : float;
  c_dueDate : JSDate.Date;
  c_notes : option string
}.

(** [prisma.payment.create({ data })]: the foreign key on [billId] is
    checked, a fresh id is drawn, the row is appended. *)
Definition payment_create (data : CreateData) : db Payment.t :=
  fun s =>
    match bill_lookup s (c_billId data) with
    | None => (Err ForeignKeyViolation, s)
    | Some _ =>
        let row :=
          Payment.mk (next_id s) (c_billId data) (c_amount data) PENDING
            (c_dueDate data) None (c_notes data) in
        (Ok row, mkStore (bills s) (payments s ++ [row]) (S (next_id s)))
    end.

(** [prisma.payment.findMany({ where, include: { bill: true },
    orderBy: { dueDate: 'asc' } })]. *)
Definition payment_findMany_asc (where_ : Payment.t -> bool)
  : db (list PaymentWithBill) :=
  fun s =>
    (Ok (map (include_bill s)
           (orderBy_dueDate_asc (filter where_ (payments s)))), s).

(** [prisma.payment.findFirst({ where })]. *)
Definition payment_findFirst (where_ : Payment.t -> bool)
  : db (option Payment.t) :=
  fun s => (Ok (find where_ (payments s)), s).

(** The columns an [update] call may supply; an absent one is left as it
    is. *)
Record UpdateData : Type := mkUpdateData {
  u_amount : option float;
  u_status : option PaymentStatus;
  u_paidDate : option JSDate.Date;
  u_notes : option string
}.

Definition apply_update (data : UpdateData) (p : Payment.t) : Payment.t :=
  Payment.mk (Payment.id p) (Payment.billId p)
    (match u_amount data with Some a => a | None => Payment.amount p end)
    (match u_status data with Some st => st | None => Payment.status p end)
    (Payment.dueDate p)
    (match u_paidDate data with
     | Some d => Some d
     | None => Payment.paidDate p
     end)
    (match u_notes data with
     | Some n => Some n
     | None => Payment.notes p
     end).

Definition has_id (i : Id) (p : Payment.t) : bool :=
  Nat.eqb (Payment.id p) i.

(** [prisma.payment.update({ where: { id }, data })]: throws when no row
    has the id. *)
Definition payment_update (i : Id) (data : UpdateData) : db Payment.t :=
  fun s =>
    match find (has_id i) (payments s) with
    | None => (Err RecordNotFound, s)
    | Some p =>
        (Ok (apply_update data p),
         mkStore (bills s)
           (map (fun q => if has_id i q then apply_update data q else q)
              (payments s))
           (next_id s))
    end.

(** [prisma.payment.updateMany({ where, data })], returning [count]. *)
Definition payment_updateMany (where_ : Payment.t -> bool)
  (data : UpdateData) : db nat :=
  fun s =>
    (Ok (length (filter where_ (payments s))),
     mkStore (bills s)
       (map (fun q => if where_ q then apply_update data q else q)
          (payments s))
       (next_id s)).

(** [prisma.payment.delete({ where: { id } })]. *)
Definition payment_delete (i : Id) : db Payment.t :=
  fun s =>
    match find (has_id i) (payments s) with
    | None => (Err RecordNotFound, s)
    | Some p =>
        (Ok p,
         mkStore (bills s)
           (filter (fun q => negb (has_id i q)) (payments s))
           (next_id s))
    end.

End Prisma.

(* ===================================================================== *)
(** * Summaries and comparison metrics *)
(* ===================================================================== *)

(** The four running sums of [getPaymentsSummary]; the type of numbers and
    its addition are parameters, so that the loop can be read both with
    JavaScript numbers and with exact arithmetic. *)
Record SummaryOf (num : Type) : Type := mkSummary {
  total : num;
  paid : num;
  pending : num;
  overdue : num
}.
Arguments mkSummary {num}.
Arguments total {num}.
Arguments paid {num}.
Arguments pending {num}.
Arguments overdue {num}.

Section SummaryLoop.
Context {P num : Type}.
Variable zero : num.
Variable add : num -> num -> num.
Variable amount_of : P -> num.
Variable status_of : P -> PaymentStatus.

(** The body of [payments.forEach((payment) => { ... })]. *)
Definition summary_step (summary : SummaryOf num) (payment : P)
  : SummaryOf num :=
  let summary :=
    mkSummary (add (total summary) (amount_of payment))
      (paid summary) (pending summary) (overdue summary) in
  match status_of payment with
  | PAID =>
      mkSummary (total summary) (add (paid summary) (amount_of payment))
        (pending summary) (overdue summary)
  | PENDING =>
      mkSummary (total summary) (paid summary)
        (add (pending summary) (amount_of payment)) (overdue summary)
  | OVERDUE =>
      mkSummary (total summary) (paid summary) (pending summary)
        (add (overdue summary) (amount_of payment))
  end.

Definition summary_forEach (payments : list P) : SummaryOf num :=
  fold_left summary_step payments (mkSummary zero zero zero zero).


End SummaryLoop.

Definition Summary : Type := SummaryOf float.

Record MonthSummary : Type := mkMonthSummary {
  ms_year : Z;
  ms_month : Z;
  ms_monthLabel : string;
  ms_summary : Summary
}.

Inductive Trend : Type := up | down | stable.

Record ComparisonMetric : Type := mkComparisonMetric {
  metricName : string;
  values : list float;
  change : float;
  percentageChange : option float;
  trend : Trend
}.

Record Metrics : Type := mkMetrics {
  m_total : ComparisonMetric;
  m_paid : ComparisonMetric;
  m_pending : ComparisonMetric;
  m_overdue : ComparisonMetric
}.

Record PaymentComparison : Type := mkPaymentComparison {
  months : list MonthSummary;
  metrics : Metrics
}.

(** [values[i]].  An index past the end reads [undefined], which every use
    in [createMetric] (subtraction, division, [!== 0]) treats as it treats
    NaN. *)
Definition index (values : list float) (i : nat) : float :=
  nth i values nan.

Definition createMetric (metricName : string) (values : list float)
  : ComparisonMetric :=
  let previousValue := index values 1 in
  let currentValue := index values 2 in
  let change := (currentValue - previousValue)%float in
  let percentageChange :=
    if negb (previousValue =? 0)%float
    then Some ((change / previousValue) * 100)%float
    else None in
  let trend :=
    if (abs change <? 0.01)%float then stable
    else if (0 <? change)%float then up
    else down in
  mkComparisonMetric metricName values change percentageChange trend.

Definition calculateComparisonMetrics (summaries : list MonthSummary)
  : Metrics :=
  mkMetrics
    (createMetric "Total" (map (fun s => total (ms_summary s)) summaries))
    (createMetric "Paid" (map (fun s => paid (ms_summary s)) summaries))
    (createMetric "Pending" (map (fun s => pending (ms_summary s)) summaries))
    (createMetric "Overdue" (map (fun s => overdue (ms_summary s)) summaries)).

(* ===================================================================== *)
(** * The service *)
(* ===================================================================== *)

Module PaymentService.
Import Prisma.

Record CreatePaymentInput : Type := mkCreatePaymentInput {
  in_billId : Id;
  in_amount : float;
  in_dueDate : JSDate.Date;
  in_notes : option string
}.

Definition UpdatePaymentInput : Type := UpdateData.

Definition createPayment (input : CreatePaymentInput) : db Payment.t :=
  payment_create
    (mkCreateData (in_billId input) (in_amount input) (in_dueDate input)
       (in_notes input)).

(** The [where] clause of [getPaymentsByMonth]. *)
Definition in_listing_window (year month : Z) (p : Payment.t) : bool :=
  let startDate := JSDate.new_Date year (month - 1) 1 in
  let endDate := JSDate.new_Date6 year month 0 23 59 59 in
  (startDate <=? Payment.dueDate p) && (Payment.dueDate p <=? endDate).

Definition getPaymentsByMonth (year month : Z) : db (list PaymentWithBill) :=
  payment_findMany_asc (in_listing_window year month).

Definition updatePayment (id : Id) (input : UpdatePaymentInput)
  : db Payment.t :=
  payment_update id input.

(** [markAsPaid(id, paidDate?)]; [now] is the value of [new Date()].  A
    [Date] object is always truthy, so [paidDate || new Date()] is
    [paidDate] whenever one is passed. *)
Definition markAsPaid (now : JSDate.Date) (id : Id)
  (paidDate : option JSDate.Date) : db Payment.t :=
  updatePayment id
    (mkUpdateData None (Some PAID)
       (Some (match paidDate with Some d => d | None => now end))
       None).

Definition deletePayment (id : Id) : db Payment.t := payment_delete id.

(** The [where] clause of the existence check of
    [generateMonthlyPayments]. *)
Definition in_duplicate_window (year month : Z) (bill : Bill.t)
  (p : Payment.t) : bool :=
  Nat.eqb (Payment.billId p) (Bill.id bill)
  && (JSDate.new_Date year (month - 1) 1 <=? Payment.dueDate p)
  && (Payment.dueDate p <? JSDate.new_Date year month 1).

Definition generate_for_bill (year month : Z) (payments : list Payment.t)
  (bill : Bill.t) : db (list Payment.t) :=
  existingPayment <-
    payment_findFirst (in_duplicate_window year month bill) ;;
  match existingPayment with
  | None =>
      let dueDate := JSDate.new_Date year (month - 1) (Bill.dueDay bill) in
      payment <-
        createPayment
          (mkCreatePaymentInput (Bill.id bill) (Bill.amount bill) dueDate
             None) ;;
      ret (payments ++ [payment])
  | Some _ => ret payments
  end.

Definition generateMonthlyPayments (year month : Z) : db (list Payment.t) :=
  bills <- bill_findMany Bill.active ;;
  for_of bills (generate_for_bill year month) [].

(** The [where] clause of [updateOverduePayments]. *)
Definition is_stale (now : JSDate.Date) (p : Payment.t) : bool :=
  PaymentStatus_eqb (Payment.status p) PENDING
  && (Payment.dueDate p <? now).

(** [updateOverduePayments()]; [now] is the value of [new Date()]. *)
Definition updateOverduePayments (now : JSDate.Date) : db nat :=
  payment_updateMany (is_stale now)
    (mkUpdateData None (Some OVERDUE) None None).

Definition getPaymentsSummary (year month : Z) : db Summary :=
  payments <- getPaymentsByMonth year month ;;
  ret (summary_forEach 0%float PrimFloat.add
         (fun p => Payment.amount (pwb_payment p))
         (fun p => Payment.status (pwb_payment p))
         payments).

Section Comparison.
(** [formatMonth] of [utils/formatters.ts] renders the label of a month
    through the locale library; the service only copies its result. *)
Variable formatMonth : JSDate.Date -> string.

Definition month_summary (ym : YearMonth) : db MonthSummary :=
  summary <- getPaymentsSummary (ym_year ym) (ym_month ym) ;;
  ret (mkMonthSummary (ym_year ym) (ym_month ym)
         (formatMonth (JSDate.new_Date (ym_year ym) (ym_month ym - 1) 1))
         summary).

Definition getPaymentComparison (year month : Z) : db PaymentComparison :=
  let months := calculatePreviousMonths year month 3 in
  summaries <-
    for_of months
      (fun done ym => s <- month_summary ym ;; ret (done ++ [s])) [] ;;
  ret (mkPaymentComparison summaries
         (calculateComparisonMetrics summaries)).
End Comparison.

End PaymentService.

(* ===================================================================== *)
(** * Sequences of service calls *)
(* ===================================================================== *)

Module History.
Import Prisma PaymentService.

(** The mutating methods of the service that keep payments in the
    table. *)
Inductive call : Type :=
| CreatePayment (input : CreatePaymentInput)
| GenerateMonthlyPayments (year month : Z)
| UpdatePayment (id : Id) (input : UpdatePaymentInput)
| MarkAsPaid (now : JSDate.Date) (id : Id) (paidDate : option JSDate.Date)
| UpdateOverduePayments (now : JSDate.Date).

(** The store a call leaves behind, whether it returns or throws. *)
Definition run (c : call) (s : Store) : Store :=
  match c with
  | CreatePayment input => snd (createPayment input s)
  | GenerateMonthlyPayments year month =>
      snd (generateMonthlyPayments year month s)
  | UpdatePayment id input => snd (updatePayment id input s)
  | MarkAsPaid now id paidDate => snd (markAsPaid now id paidDate s)
  | UpdateOverduePayments now => snd (updateOverduePayments now s)
  end.

Definition run_all (cs : list call) (s : Store) : Store :=
  fold_left (fun s c => run c s) cs s.

(** "paidDate is set if and only if status is PAID". *)
Definition paidDate_iff_PAID (p : Payment.t) : Prop :=
  Payment.paidDate p <> None <-> Payment.status p = PAID.

Definition paidDate_rule (s : Store) : Prop :=
  Forall paidDate_iff_PAID (payments s).

(** An update input that touches neither [status] nor [paidDate], or sets
    [status] to PAID together with a [paidDate]. *)
Definition settles_or_leaves (input : UpdatePaymentInput) : Prop :=
  (u_status input = None /\ u_paidDate input = None)
  \/ (u_status input = Some PAID /\ u_paidDate input <> None).

Definition careful (c : call) : Prop :=
  match c with
  | UpdatePayment _ input => settles_or_leaves input
  | _ => True
  end.
End History.

(* ===================================================================== *)
(** * Ordering rows by a column *)
(* ===================================================================== *)

Section OrderBy.
Context {A : Type}.

(** [before x y]: row [x] sorts strictly before row [y]. *)
Variable before : A -> A -> bool.

Fixpoint insert_by (x : A) (l : list A) : list A :=
  match l with
  | [] => [x]
  | y :: rest => if before x y then x :: l else y :: insert_by x rest
  end.

Definition orderBy (l : list A) : list A :=
  fold_left (fun sorted x => insert_by x sorted) l [].
End OrderBy.

(** [orderBy: { column: 'asc' }] and [orderBy: { column: 'desc' }] for a
    column with integer values. *)
Definition asc {A : Type} (column : A -> Z) (x y : A) : bool :=
  column x <? column y.

Definition desc {A : Type} (column : A -> Z) (x y : A) : bool :=
  column y <? column x.

(* ===================================================================== *)
(** * The remaining queries *)
(* ===================================================================== *)

Module Queries.
Import Prisma.

(** [prisma.payment.findMany({ include: { bill: true },
    orderBy: { dueDate: 'desc' } })]. *)
Definition payment_findMany_desc : db (list PaymentWithBill) :=
  fun s =>
    (Ok (map (include_bill s) (orderBy (desc Payment.dueDate) (payments s))),
     s).

(** [prisma.payment.findUnique({ where: { id }, include: { bill: true } })]. *)
Definition payment_findUnique (i : Id) : db (option PaymentWithBill) :=
  fun s =>
    (Ok (option_map (include_bill s) (find (has_id i) (payments s))), s).

Definition bill_has_id (i : Id) (b : Bill.t) : bool := Nat.eqb (Bill.id b) i.

(** [prisma.bill.findUnique({ where: { id } })]. *)
Definition bill_findUnique (i : Id) : db (option Bill.t) :=
  fun s => (Ok (find (bill_has_id i) (bills s)), s).

(** [prisma.bill.findFirst({ where })]. *)
Definition bill_findFirst (where_ : Bill.t -> bool) : db (option Bill.t) :=
  fun s => (Ok (find where_ (bills s)), s).

(** [prisma.bill.findMany({ where, orderBy: { dueDay: 'asc' } })]; an
    undefined [where] selects every row. *)
Definition bill_findMany_asc (where_ : option (Bill.t -> bool))
  : db (list Bill.t) :=
  fun s =>
    (Ok (orderBy (asc Bill.dueDay)
           (match where_ with
            | Some w => filter w (bills s)
            | None => bills s
            end)), s).

(** The columns a [bill.create] call may supply; [active] defaults to
    true. *)
Record BillCreateData : Type := mkBillCreateData {
  bc_name : string;
  bc_type : BillType;
  bc_amount : float;
  bc_dueDay : Z;
  bc_description : option string
}.

(** [prisma.bill.create({ data })]. *)
Definition bill_create (data : BillCreateData) : db Bill.t :=
  fun s =>
    let row :=
      Bill.mk (next_id s) (bc_name data) (bc_type data) (bc_amount data)
        (bc_dueDay data) (bc_description data) true in
    (Ok row, mkStore (bills s ++ [row]) (payments s) (S (next_id s))).

(** The columns a [bill.update] call may supply. *)
Record BillUpdateData : Type := mkBillUpdateData {
  bu_name : option string;
  bu_type : option BillType;
  bu_amount : option float;
  bu_dueDay : option Z;
  bu_description : option string;
  bu_active : option bool
}.

Definition apply_bill_update (data : BillUpdateData) (b : Bill.t) : Bill.t :=
  Bill.mk (Bill.id b)
    (match bu_name data with Some n => n | None => Bill.name b end)
    (match bu_type data with Some t => t | None => Bill.type b end)
    (match bu_amount data with Some a => a | None => Bill.amount b end)
    (match bu_dueDay data with Some d => d | None => Bill.dueDay b end)
    (match bu_description data with
     | Some d => Some d
     | None => Bill.description b
     end)
    (match bu_active data with Some a => a | None => Bill.active b end).

(** [prisma.bill.update({ where: { id }, data })]. *)
Definition bill_update (i : Id) (data : BillUpdateData) : db Bill.t :=
  fun s =>
    match find (bill_has_id i) (bills s) with
    | None => (Err RecordNotFound, s)
    | Some b =>
        (Ok (apply_bill_update data b),
         mkStore
           (map (fun q => if bill_has_id i q then apply_bill_update data q
                          else q) (bills s))
           (payments s) (next_id s))
    end.

(** [prisma.bill.delete({ where: { id } })].  The foreign key of
    [payments] is declared [ON DELETE CASCADE]: the payments of the bill go
    with it. *)
Definition bill_delete (i : Id) : db Bill.t :=
  fun s =>
    match find (bill_has_id i) (bills s) with
    | None => (Err RecordNotFound, s)
    | Some b =>
        (Ok b,
         mkStore
           (filter (fun q => negb (bill_has_id i q)) (bills s))
           (filter (fun p => negb (Nat.eqb (Payment.billId p) i))
              (payments s))
           (next_id s))
    end.

End Queries.

(* ===================================================================== *)
(** * The bill service *)
(* ===================================================================== *)

(** What a method may throw: an error of the database client, or a
    JavaScript [Error] with a message. *)
Inductive Thrown : Type :=
| PrismaThrown (e : PrismaError)
| ErrorThrown (message : string).

Inductive outcome (A : Type) : Type :=
| Returned (a : A)
| Raised (t : Thrown).
Arguments Returned {A} a.
Arguments Raised {A} t.

Definition lift {A : Type} (m : db A) : Store -> outcome A * Store :=
  fun s =>
    match m s with
    | (Ok a, s') => (Returned a, s')
    | (Err e, s') => (Raised (PrismaThrown e), s')
    end.

Module BillService.
Import Prisma Queries.

Definition CreateBillInput : Type := BillCreateData.
Definition UpdateBillInput : Type := BillUpdateData.

Definition createBill (input : CreateBillInput) : db Bill.t :=
  bill_create input.

Definition getAllBills (activeOnly : bool) : db (list Bill.t) :=
  bill_findMany_asc (if activeOnly then Some Bill.active else None).

Definition getBillById (id : Id) : db (option Bill.t) := bill_findUnique id.

Definition getBillByName (name : string) : db (option Bill.t) :=
  bill_findFirst (fun b => String.eqb (Bill.name b) name).

Definition updateBill (id : Id) (input : UpdateBillInput) : db Bill.t :=
  bill_update id input.

Definition deleteBill (id : Id) : db Bill.t := bill_delete id.

Definition toggleBillStatus (id : Id) : Store -> outcome Bill.t * Store :=
  fun s =>
    match getBillById id s with
    | (Err e, s1) => (Raised (PrismaThrown e), s1)
    | (Ok None, s1) => (Raised (ErrorThrown "Bill not found"), s1)
    | (Ok (Some bill), s1) =>
        lift (updateBill id
                (mkBillUpdateData None None None None None
                   (Some (negb (Bill.active bill))))) s1
    end.

End BillService.

(* ===================================================================== *)
(** * The reading methods of the payment service *)
(* ===================================================================== *)

Module PaymentReads.
Import Prisma Queries.

Definition getAllPayments : db (list PaymentWithBill) :=
  payment_findMany_desc.

Definition getPaymentById (id : Id) : db (option PaymentWithBill) :=
  payment_findUnique id.

Definition getPaymentsByStatus (status : PaymentStatus)
  : db (list PaymentWithBill) :=
  payment_findMany_asc
    (fun p => PaymentStatus_eqb (Payment.status p) status).

End PaymentReads.

(* ===================================================================== *)
(** * The payment commands *)
(* ===================================================================== *)

(** The parts of [commands/paymentCommands.ts] that decide what is read
    and written; prompting and rendering are left out, the answers of the
    prompts are parameters. *)
Module Commands.
Import Prisma PaymentService PaymentReads.

(** [\d] of a regular expression: one of the characters 0 to 9. *)
Definition is_digit (c : Ascii.ascii) : bool :=
  (48 <=? Ascii.nat_of_ascii c)%nat && (Ascii.nat_of_ascii c <=? 57)%nat.

Definition digit_value (c : Ascii.ascii) : Z :=
  Z.of_nat (Ascii.nat_of_ascii c) - 48.

(** The [validate] function of the month prompts:
    [/^\d{4}-\d{2}$/.test(input)]; the character of code 45 is the
    dash. *)
Definition valid_monthYear (input : string) : bool :=
  match list_ascii_of_string input with
  | [y1; y2; y3; y4; dash; m1; m2] =>
      is_digit y1 && is_digit y2 && is_digit y3 && is_digit y4
      && Ascii.eqb dash (Ascii.ascii_of_nat 45)
      && is_digit m1 && is_digit m2
  | _ => false
  end.

(** [const [year, month] = monthYear.split('-').map(Number)] on an input
    the prompt has accepted: four decimal digits, a dash, two decimal
    digits. *)
Definition parse_monthYear (input : string) : option (Z * Z) :=
  if valid_monthYear input then
    match list_ascii_of_string input with
    | [y1; y2; y3; y4; _; m1; m2] =>
        Some (1000 * digit_value y1 + 100 * digit_value y2
              + 10 * digit_value y3 + digit_value y4,
              10 * digit_value m1 + digit_value m2)
    | _ => None
    end
  else None.

(** [showMonthlySummary]: the sweep, then the sums and the rows that are
    displayed; [now] is the value of [new Date()] in the sweep. *)
Definition showMonthlySummary (now : JSDate.Date) (year month : Z)
  : db (Summary * list PaymentWithBill) :=
  _ <- updateOverduePayments now ;;
  summary <- getPaymentsSummary year month ;;
  payments <- getPaymentsByMonth year month ;;
  ret (summary, payments).

(** [markPaymentAsPaid]: the payments offered for selection,
    [[...pendingPayments, ...overduePayments]]. *)
Definition unpaidPayments : db (list PaymentWithBill) :=
  pendingPayments <- getPaymentsByStatus PENDING ;;
  overduePayments <- getPaymentsByStatus OVERDUE ;;
  ret (pendingPayments ++ overduePayments).

End Commands.

(* ===================================================================== *)
(** * Rendering a comparison *)
(* ===================================================================== *)

(** The three helpers of [displayPaymentComparison] in [utils/display.ts].
    A string passed through [chalk] is modelled by the string and its
    colour. *)
Module Display.

Inductive Colour : Type := red | green | gray | cyan.

Record Styled : Type := mkStyled { colour : Colour; text : string }.

Section Helpers.
(** [formatCurrency] and [formatPercentage] of [utils/formatters.ts]
    render numbers through the locale library. *)
Variable formatCurrency : float -> string.
Variable formatPercentage : float -> string.

Definition formatTrend (trend : Trend) : Styled :=
  match trend with
  | up => mkStyled red "↑"
  | down => mkStyled green "↓"
  | stable => mkStyled gray "→"
  end.

Definition formatChange (change : float) (trend : Trend)
  (isBadMetric : bool) : Styled :=
  match trend with
  | stable => mkStyled gray (formatCurrency 0%float)
  | _ =>
      let formatted := formatCurrency (abs change) in
      let sign := if (0 <=? change)%float then "+"%string else "-"%string in
      if isBadMetric then
        if (0 <? change)%float then mkStyled red (sign ++ formatted)
        else mkStyled green (sign ++ formatted)
      else mkStyled cyan (sign ++ formatted)
  end.

Definition formatPercentageChange (percentageChange : option float)
  (trend : Trend) (isBadMetric : bool) : Styled :=
  match percentageChange with
  | None => mkStyled gray "N/A"
  | Some pc =>
      match trend with
      | stable => mkStyled gray "0,0%"
      | _ =>
          let formatted := formatPercentage (abs pc) in
          let sign := if (0 <=? pc)%float then "+"%string else "-"%string in
          if isBadMetric then
            if (0 <? pc)%float then mkStyled red (sign ++ formatted)
            else mkStyled green (sign ++ formatted)
          else mkStyled cyan (sign ++ formatted)
      end
  end.
End Helpers.

End Display.

(* ===================================================================== *)
(** * Sessions: calls of both services *)
(* ===================================================================== *)

Module Session.
Import Prisma Queries PaymentService BillService.

Inductive call : Type :=
| OnPayments (c : History.call)
| DeletePayment (id : Id)
| CreateBill (input : CreateBillInput)
| UpdateBill (id : Id) (input : UpdateBillInput)
| DeleteBill (id : Id)
| ToggleBillStatus (id : Id).

Definition run (c : call) (s : Store) : Store :=
  match c with
  | OnPayments c => History.run c s
  | DeletePayment id => snd (deletePayment id s)
  | CreateBill input => snd (createBill input s)
  | UpdateBill id input => snd (updateBill id input s)
  | DeleteBill id => snd (deleteBill id s)
  | ToggleBillStatus id => snd (toggleBillStatus id s)
  end.

Definition run_all (cs : list call) (s : Store) : Store :=
  fold_left (fun s c => run c s) cs s.

(** The constraints the schema declares: primary keys are unique (and, in
    the model, drawn below [next_id]), and the [billId] of every payment is
    the id of a stored bill. *)
Record integrity (s : Store) : Prop := mkIntegrity {
  bill_ids_unique : NoDup (map Bill.id (bills s));
  payment_ids_unique : NoDup (map Payment.id (payments s));
  bill_ids_drawn : Forall (fun b => (Bill.id b < next_id s)%nat) (bills s);
  payment_ids_drawn :
    Forall (fun p => (Payment.id p < next_id s)%nat) (payments s);
  payments_owned :
    Forall (fun p => In (Payment.billId p) (map Bill.id (bills s)))
      (payments s)
}.

End Session.

(* ===================================================================== *)
(** * Vocabulary of the properties *)
(* ===================================================================== *)

(** What the overdue sweep run at time [now] is to do to one row [p],
    giving [p']. *)
Definition swept (now : JSDate.Date) (p p' : Payment.t) : Prop :=
  (Payment.status p = PENDING /\ Payment.dueDate p < now ->
   p' = Payment.mk (Payment.id p) (Payment.billId p) (Payment.amount p)
          OVERDUE (Payment.dueDate p) (Payment.paidDate p)
          (Payment.notes p))
  /\ (~ (Payment.status p = PENDING /\ Payment.dueDate p < now) -> p' = p)
  /\ (Payment.status p = PAID -> Payment.status p' = PAID)
  /\ (Payment.status p = OVERDUE -> Payment.status p' = OVERDUE).

(** A row before and after, with different statuses. *)
Definition status_changed (pq : Payment.t * Payment.t) : bool :=
  negb (PaymentStatus_eqb (Payment.status (fst pq))
          (Payment.status (snd pq))).

(** A binary64 number that is a positive finite number or [+Infinity]. *)
Definition positive (x : float) : Prop :=
  match Prim2SF x with
  | S754_finite false _ _ | S754_infinity false => True
  | _ => False
  end.

(** What [createMetric] is to compute for a metric whose three values are
    [oldest], [middle], [newest]: the delta of the two latest values, and a
    trend read off the delta with the tolerance 0.01. *)
Definition delta_and_trend (m : ComparisonMetric)
  (oldest middle newest : float) : Prop :=
  values m = [oldest; middle; newest]
  /\ change m = (newest - middle)%float
  /\ (trend m = stable <-> (abs (change m) <? 0.01)%float = true)
  /\ ((abs (change m) <? 0.01)%float = false ->
      (0 <? change m)%float = true -> trend m = up)
  /\ ((abs (change m) <? 0.01)%float = false ->
      (change m <? 0)%float = true -> trend m = down).

(** The due day of the bill is a day of the target month. *)
Definition day_exists (year month : Z) (b : Bill.t) : Prop :=
  1 <= Bill.dueDay b
  <= JSDate.DaysInMonth (JSDate.full_year year) (month - 1).

(** The bill has a payment that the existence check of
    [generateMonthlyPayments year month] finds. *)
Definition covered (year month : Z) (s : Store) (b : Bill.t) : Prop :=
  exists p,
    In p (payments s)
    /\ PaymentService.in_duplicate_window year month b p = true.


(** The row [generateMonthlyPayments year month] creates for bill [b]
    under id [i]. *)
Definition generated (year month : Z) (i : Id) (b : Bill.t) : Payment.t :=
  Payment.mk i (Bill.id b) (Bill.amount b) PENDING
    (JSDate.new_Date year (month - 1) (Bill.dueDay b)) None None.

(** Some payment of the list is one the existence check for [b] finds. *)
Definition has_payment_in_window (year month : Z) (l : list Payment.t)
  (b : Bill.t) : bool :=
  existsb (PaymentService.in_duplicate_window year month b) l.

(** The active bills without such a payment, in table order. *)
Definition due_bills (year month : Z) (s : Store) : list Bill.t :=
  filter (fun b => negb (has_payment_in_window year month (payments s) b))
    (filter Bill.active (bills s)).

(** One new row per bill, with ids drawn in sequence from [first]. *)
Definition generated_rows (year month : Z) (first : Id) (bs : list Bill.t)
  : list Payment.t :=
  map (fun ib => generated year month (fst ib) (snd ib))
    (combine (seq first (List.length bs)) bs).

(** The payments of [s] are all found again in [s'], in the same order
    and in front of any newer ones, each related to what it was by [R]. *)
Definition kept (R : Payment.t -> Payment.t -> Prop) (s s' : Store) : Prop :=
  exists l' newer,
    payments s' = l' ++ newer /\ Forall2 R (payments s) l'.


(** The order of the life cycle PENDING, OVERDUE, PAID. *)
Definition status_rank (st : PaymentStatus) : nat :=
  match st with
  | PENDING => 0
  | OVERDUE => 1
  | PAID => 2
  end.

Definition not_backwards (p p' : Payment.t) : Prop :=
  (status_rank (Payment.status p) <= status_rank (Payment.status p'))%nat.

(** A call that is not an [updatePayment] with a [status]. *)
Definition leaves_status (c : History.call) : Prop :=
  match c with
  | History.UpdatePayment _ input => Prisma.u_status input = None
  | _ => True
  end.

(** The decimal digit [d] as a character, and a year and a month number
    written the way the month prompts ask for them: YYYY-MM. *)
Definition digit_char (d : Z) : Ascii.ascii :=
  Ascii.ascii_of_nat (48 + Z.to_nat d).

Definition written_monthYear (year month : Z) : string :=
  String (digit_char (year / 1000))
    (String (digit_char (year / 100 mod 10))
       (String (digit_char (year / 10 mod 10))
          (String (digit_char (year mod 10))
             (String (Ascii.ascii_of_nat 45)
                (String (digit_char (month / 10))
                   (String (digit_char (month mod 10)) EmptyString)))))).

(* ===================================================================== *)
(** * Sample data *)
(* ===================================================================== *)

Module Sample.
Import PaymentService.

(** A bill due on the 31st, as in scenario 1 of the specification. *)
Definition rent : Bill.t :=
  Bill.mk 0%nat "Rent" RENT 1500%float 31 None true.

Definition only_rent : Store := mkStore [rent] [] 0%nat.

(** 30 April 2024, 23:59:59.500. *)
Definition late_april : JSDate.Date :=
  JSDate.new_Date6 2024 3 30 23 59 59 + 500.

Definition late_payment : Payment.t :=
  Payment.mk 0%nat 0%nat 1500%float PENDING late_april None None.

Definition rent_paid_late : Store := mkStore [rent] [late_payment] 1%nat.




(** A pending payment due on 1 January 2024, as in scenario 4 of the
    specification. *)
Definition january_payment : Payment.t :=
  Payment.mk 0%nat 0%nat 1500%float PENDING (JSDate.new_Date 2024 0 1)
    None None.

Definition rent_unpaid : Store := mkStore [rent] [january_payment] 1%nat.
End Sample.

(** A store that meets the constraints of the schema: one bill, no
    payment, and the next id above the id of the bill. *)
Definition one_bill : Store := mkStore [Sample.rent] [] 1%nat.

(* ===================================================================== *)
(** * Properties of [calculatePreviousMonths] *)
(* ===================================================================== *)

Lemma year_boundary_done (m y : Z) :
  1 <= m -> year_boundary m y = mkYearMonth y m.
Proof.
  intros H. rewrite year_boundary_equation_1.
  destruct (Z_lt_dec m 1); [lia | reflexivity].
Qed.

Lemma year_boundary_once (m y : Z) :
  -11 <= m < 1 -> year_boundary m y = mkYearMonth (y - 1) (m + 12).
Proof.
  intros H. rewrite year_boundary_equation_1.
  destruct (Z_lt_dec m 1); [| lia].
  cbn. apply year_boundary_done. lia.
Qed.

Lemma months_loop_stop (y m i : Z) (acc : list YearMonth) :
  i < 0 -> months_loop y m i acc = acc.
Proof.
  intros H. rewrite months_loop_equation_1.
  destruct (Z_ge_dec i 0); [lia | reflexivity].
Qed.

Lemma months_loop_step (y m i : Z) (acc : list YearMonth) :
  0 <= i ->
  months_loop y m i acc =
  months_loop y m (i - 1) (acc ++ [year_boundary (m - i) y]).
Proof.
  intros H. rewrite months_loop_equation_1.
  destruct (Z_ge_dec i 0); [reflexivity | lia].
Qed.

Lemma calculatePreviousMonths_3 (y m : Z) :
  calculatePreviousMonths y m 3 =
  [year_boundary (m - 2) y; year_boundary (m - 1) y; year_boundary (m - 0) y].
Proof.
  unfold calculatePreviousMonths.
  rewrite months_loop_step by lia.
  rewrite months_loop_step by lia.
  rewrite months_loop_step by lia.
  rewrite months_loop_stop by lia.
  reflexivity.
Qed.

(** C7: for 1 <= month <= 12, [calculatePreviousMonths year month 3] is the
    list of exactly three (year, month) pairs: the two calendar months
    immediately before the target and the target itself, oldest first; for
    month = 1 the preceding pairs are (year-1, 11) and (year-1, 12), for
    month = 2 they are (year-1, 12) and (year, 1). *)
Theorem calculatePreviousMonths_three_months (year month : Z) :
  1 <= month <= 12 ->
  let target := mkYearMonth year month in
  let r := calculatePreviousMonths year month 3 in
  r = [month_before (month_before target); month_before target; target]
  /\ (month = 1 ->
      r = [mkYearMonth (year - 1) 11; mkYearMonth (year - 1) 12;
           mkYearMonth year 1])
  /\ (month = 2 ->
      r = [mkYearMonth (year - 1) 12; mkYearMonth year 1;
           mkYearMonth year 2])
  /\ (3 <= month ->
      r = [mkYearMonth year (month - 2); mkYearMonth year (month - 1);
           mkYearMonth year month])
  /\ Forall (fun p => 1 <= ym_month p <= 12) r.
Proof.
  intros Hm target r. subst target r.
  rewrite calculatePreviousMonths_3.
  replace (month - 0) with month by lia.
  rewrite (year_boundary_done month) by lia.
  assert (Hcases : month = 1 \/ month = 2 \/ 3 <= month) by lia.
  destruct Hcases as [-> | [-> | H3]].
  - rewrite !year_boundary_once by lia. cbn.
    repeat split; try lia; try reflexivity; repeat constructor; cbn; lia.
  - rewrite year_boundary_once by lia.
    rewrite year_boundary_done by lia. cbn.
    repeat split; try lia; try reflexivity; repeat constructor; cbn; lia.
  - rewrite !year_boundary_done by lia.
    unfold month_before; cbn.
    destruct (Z.eqb_spec month 1); [lia |]. cbn.
    destruct (Z.eqb_spec (month - 1) 1); [lia |].
    replace (month - 1 - 1) with (month - 2) by lia.
    repeat split; try lia; try reflexivity; repeat constructor; cbn; lia.
Qed.

Lemma calculatePreviousMonths_three_months_witness :
  calculatePreviousMonths 2024 1 3 =
  [mkYearMonth 2023 11; mkYearMonth 2023 12; mkYearMonth 2024 1].
Proof.
  destruct (calculatePreviousMonths_three_months 2024 1 ltac:(lia))
    as (_ & H & _).
  exact (H eq_refl).
Defined.

(* ===================================================================== *)
(** * Calendar arithmetic *)
(* ===================================================================== *)

Section DateFacts.
Import JSDate.

Lemma DaysInYear_leap (y : Z) : DaysInYear y = 365 + InLeapYear y.
Proof.
  unfold InLeapYear, DaysInYear.
  destruct (y mod 4 =? 0), (y mod 100 =? 0), (y mod 400 =? 0);
    reflexivity.
Qed.

Lemma InLeapYear_range (y : Z) : 0 <= InLeapYear y <= 1.
Proof. unfold InLeapYear. destruct (DaysInYear y =? 366); lia. Qed.

Lemma DayFromYear_next (y : Z) :
  DayFromYear (y + 1) = DayFromYear y + DaysInYear y.
Proof.
  unfold DayFromYear, DaysInYear.
  destruct (Z.eqb_spec (y mod 4) 0) as [H4 | H4];
    destruct (Z.eqb_spec (y mod 100) 0) as [H100 | H100];
    destruct (Z.eqb_spec (y mod 400) 0) as [H400 | H400];
    cbn [negb]; Z.div_mod_to_equations; lia.
Qed.

Lemma DaysInMonth_range (y mn : Z) : 28 <= DaysInMonth y mn <= 31.
Proof.
  pose proof (InLeapYear_range y).
  unfold DaysInMonth.
  destruct mn as [| p | p]; try lia.
  do 4 (try (destruct p as [p | p |]; try lia)).
Qed.

Lemma DaysBeforeMonth_next (y mn : Z) :
  0 <= mn <= 10 ->
  DaysBeforeMonth y (mn + 1) = DaysBeforeMonth y mn + DaysInMonth y mn.
Proof.
  intros H. unfold DaysBeforeMonth, DaysInMonth.
  pose proof (InLeapYear_range y) as Hl.
  assert (Hc : mn = 0 \/ mn = 1 \/ mn = 2 \/ mn = 3 \/ mn = 4 \/ mn = 5
               \/ mn = 6 \/ mn = 7 \/ mn = 8 \/ mn = 9 \/ mn = 10) by lia.
  assert (Hleap : InLeapYear y = 0 \/ InLeapYear y = 1) by lia.
  destruct Hleap as [-> | ->];
    repeat (destruct Hc as [-> | Hc]; [reflexivity |]);
    subst mn; reflexivity.
Qed.

Lemma DaysBeforeMonth_december (y : Z) :
  DaysBeforeMonth y 11 + DaysInMonth y 11 = DaysInYear y.
Proof.
  rewrite DaysInYear_leap. unfold DaysBeforeMonth, DaysInMonth. lia.
Qed.

Lemma MakeDay_first (y mn : Z) :
  0 <= mn <= 11 -> MakeDay y mn 1 = DayFromYear y + DaysBeforeMonth y mn.
Proof.
  intros H. unfold MakeDay.
  rewrite Z.div_small, Z.mod_small by lia.
  rewrite Z.add_0_r. lia.
Qed.

Lemma MakeDay_first_12 (y : Z) : MakeDay y 12 1 = DayFromYear (y + 1).
Proof.
  unfold MakeDay.
  change (12 / 12) with 1. change (12 mod 12) with 0.
  unfold DaysBeforeMonth. lia.
Qed.

(** The first day of a month and of the next are one month length
    apart. *)
Lemma MakeDay_next_month (y month : Z) :
  1 <= month <= 12 ->
  MakeDay y month 1 = MakeDay y (month - 1) 1 + DaysInMonth y (month - 1).
Proof.
  intros H.
  rewrite (MakeDay_first y (month - 1)) by lia.
  destruct (Z.eq_dec month 12) as [-> | Hne].
  - rewrite MakeDay_first_12, DayFromYear_next.
    change (12 - 1) with 11.
    rewrite <- DaysBeforeMonth_december. lia.
  - rewrite (MakeDay_first y month) by lia.
    replace month with (month - 1 + 1) at 1 by lia.
    rewrite DaysBeforeMonth_next by lia. lia.
Qed.

Lemma MakeDay_date (y m d : Z) : MakeDay y m d = MakeDay y m 1 + (d - 1).
Proof. unfold MakeDay. lia. Qed.

Lemma new_Date_day (year m d : Z) :
  new_Date year m d = new_Date year m 1 + (d - 1) * msPerDay.
Proof.
  unfold new_Date, new_Date6, MakeDate, MakeTime.
  rewrite (MakeDay_date _ _ d). lia.
Qed.

(** The upper bound of the listing window is one second before the next
    month starts. *)
Lemma listing_end (year month : Z) :
  new_Date6 year month 0 23 59 59 = new_Date year month 1 - 1000.
Proof.
  unfold new_Date, new_Date6, MakeDate, MakeTime.
  rewrite (MakeDay_date _ _ 0).
  unfold msPerDay, msPerHour, msPerMinute, msPerSecond. lia.
Qed.

Lemma new_Date_next_month (year month : Z) :
  1 <= month <= 12 ->
  new_Date year month 1 =
  new_Date year (month - 1) 1
  + DaysInMonth (full_year year) (month - 1) * msPerDay.
Proof.
  intros H. unfold new_Date, new_Date6, MakeDate, MakeTime.
  rewrite (MakeDay_next_month _ month H). lia.
Qed.

(** A day number lands inside the month exactly when the month has such a
    day. *)
Lemma new_Date_in_month (year month d : Z) :
  1 <= month <= 12 ->
  (new_Date year (month - 1) 1 <= new_Date year (month - 1) d
   /\ new_Date year (month - 1) d < new_Date year month 1)
  <-> 1 <= d <= DaysInMonth (full_year year) (month - 1).
Proof.
  intros H.
  rewrite (new_Date_next_month year month H), (new_Date_day year _ d).
  unfold msPerDay. lia.
Qed.
End DateFacts.

(* ===================================================================== *)
(** * Lists and queries *)
(* ===================================================================== *)

Lemma find_In_some {A : Type} (f : A -> bool) (l : list A) (x : A) :
  In x l -> f x = true -> exists y, find f l = Some y.
Proof.
  induction l as [| a l IH]; intros Hin Hf; [destruct Hin |].
  cbn. destruct (f a) eqn:Ea; [eauto |].
  destruct Hin as [-> | Hin]; [congruence | auto].
Qed.

Lemma find_none_iff {A : Type} (f : A -> bool) (l : list A) :
  find f l = None <-> forall x, In x l -> f x = false.
Proof.
  split.
  - apply find_none.
  - induction l as [| a l IH]; intros H; [reflexivity |].
    cbn. rewrite (H a (or_introl eq_refl)). apply IH.
    intros x Hx. apply H. now right.
Qed.

Lemma filter_narrow {A : Type} (f g : A -> bool) (l : list A) :
  (forall x, f x = true -> g x = true) ->
  filter f (filter g l) = filter f l.
Proof.
  intros H. induction l as [| a l IH]; [reflexivity |].
  cbn. destruct (g a) eqn:Eg; cbn.
  - destruct (f a); [f_equal |]; exact IH.
  - destruct (f a) eqn:Ef; [| exact IH].
    apply H in Ef. congruence.
Qed.

Lemma insert_by_dueDate_perm (p : Payment.t) (l : list Payment.t) :
  Permutation (p :: l) (insert_by_dueDate p l).
Proof.
  induction l as [| q l IH]; cbn; [reflexivity |].
  destruct (Payment.dueDate p <? Payment.dueDate q); [reflexivity |].
  rewrite perm_swap. now constructor.
Qed.

Lemma orderBy_dueDate_asc_perm (l : list Payment.t) :
  Permutation l (orderBy_dueDate_asc l).
Proof.
  unfold orderBy_dueDate_asc.
  assert (H : forall acc, Permutation (l ++ acc)
                (fold_left (fun sorted p => insert_by_dueDate p sorted) l acc)).
  { induction l as [| p l IH]; intros acc; cbn; [reflexivity |].
    rewrite <- IH. rewrite <- insert_by_dueDate_perm.
    now rewrite Permutation_middle. }
  specialize (H []). now rewrite app_nil_r in H.
Qed.

Lemma orderBy_dueDate_asc_In (l : list Payment.t) (p : Payment.t) :
  In p (orderBy_dueDate_asc l) <-> In p l.
Proof.
  split; apply Permutation_in;
    [symmetry |]; apply orderBy_dueDate_asc_perm.
Qed.

Section ListingFacts.
Import JSDate Prisma PaymentService.

(** The rows of a month listing are the stored payments that satisfy the
    [where] clause. *)
Lemma getPaymentsByMonth_rows (year month : Z) (s : Store) :
  exists rows,
    getPaymentsByMonth year month s = (Ok rows, s)
    /\ forall p, In p (map pwb_payment rows)
                 <-> In p (payments s) /\ in_listing_window year month p = true.
Proof.
  unfold getPaymentsByMonth, payment_findMany_asc.
  eexists. split; [reflexivity |].
  intros p. rewrite map_map. cbn. rewrite map_id.
  rewrite orderBy_dueDate_asc_In. apply filter_In.
Qed.

Lemma in_listing_window_bounds (year month : Z) (p : Payment.t) :
  in_listing_window year month p = true
  <-> new_Date year (month - 1) 1 <= Payment.dueDate p
      /\ Payment.dueDate p <= new_Date year month 1 - 1000.
Proof.
  unfold in_listing_window. rewrite listing_end.
  rewrite andb_true_iff, !Z.leb_le. reflexivity.
Qed.

Lemma in_duplicate_window_bounds (year month : Z) (b : Bill.t)
  (p : Payment.t) :
  in_duplicate_window year month b p = true
  <-> Payment.billId p = Bill.id b
      /\ new_Date year (month - 1) 1 <= Payment.dueDate p
      /\ Payment.dueDate p < new_Date year month 1.
Proof.
  unfold in_duplicate_window.
  rewrite !andb_true_iff, Nat.eqb_eq, Z.leb_le, Z.ltb_lt. tauto.
Qed.

Lemma getPaymentsSummary_rows (year month : Z) (s : Store) :
  getPaymentsSummary year month s =
  (Ok (summary_forEach 0%float PrimFloat.add
         (fun p => Payment.amount (pwb_payment p))
         (fun p => Payment.status (pwb_payment p))
         (map (include_bill s)
            (orderBy_dueDate_asc
               (filter (in_listing_window year month) (payments s))))),
   s).
Proof. reflexivity. Qed.

(** A bill that already has a payment in the duplicate window is
    skipped: nothing is created, nothing is written. *)
Lemma generate_for_bill_skip (year month : Z) (acc : list Payment.t)
  (b : Bill.t) (s : Store) (p : Payment.t) :
  In p (payments s) ->
  in_duplicate_window year month b p = true ->
  generate_for_bill year month acc b s = (Ok acc, s).
Proof.
  intros Hin Hw.
  destruct (find_In_some _ _ _ Hin Hw) as [q Hq].
  unfold generate_for_bill, bind, payment_findFirst. now rewrite Hq.
Qed.
End ListingFacts.

(* ===================================================================== *)
(** * Payment generation: due dates and repetition *)
(* ===================================================================== *)

Section Generation.
Import JSDate Prisma PaymentService Sample.

(** The due date of a generated payment is the first day of the month
    moved forward by [dueDay - 1] days: [new Date] carries a day number
    past the end of the month into the following month. *)
Lemma generated_dueDate_overflows (year month dueDay : Z) :
  1 <= month <= 12 ->
  DaysInMonth (full_year year) (month - 1) < dueDay ->
  new_Date year month 1 <= new_Date year (month - 1) dueDay.
Proof.
  intros Hm Hd.
  rewrite (new_Date_next_month year month Hm), (new_Date_day year _ dueDay).
  unfold msPerDay. lia.
Qed.

(** C1: for a bill with dueDay = 31 the payment generated for April 2024
    is dated 1 May 2024, not 30 April; for February 2024 it is dated
    2 March, not 29 February; for February 2023 it is dated 3 March, not
    28 February.  Each of these dates lies outside the target month. *)
Theorem generate_dueDay_31_leaves_month :
  (exists p s',
      generateMonthlyPayments 2024 4 only_rent = (Ok [p], s')
      /\ Payment.dueDate p = new_Date 2024 4 1
      /\ Payment.dueDate p <> new_Date 2024 3 30
      /\ in_listing_window 2024 4 p = false
      /\ in_duplicate_window 2024 4 rent p = false)
  /\ (exists p s',
      generateMonthlyPayments 2024 2 only_rent = (Ok [p], s')
      /\ Payment.dueDate p = new_Date 2024 2 2
      /\ Payment.dueDate p <> new_Date 2024 1 29
      /\ in_duplicate_window 2024 2 rent p = false)
  /\ (exists p s',
      generateMonthlyPayments 2023 2 only_rent = (Ok [p], s')
      /\ Payment.dueDate p = new_Date 2023 2 3
      /\ Payment.dueDate p <> new_Date 2023 1 28
      /\ in_duplicate_window 2023 2 rent p = false).
Proof.
  repeat split; do 2 eexists;
    (split; [vm_compute; reflexivity |]);
    repeat split; try reflexivity; vm_compute; discriminate.
Qed.

(** C2: with one active bill due on the 31st and no payments, a second
    call of [generateMonthlyPayments 2024 4] right after the first returns
    a newly created payment and leaves two payments for the bill where
    one call leaves one. *)
Theorem generate_twice_creates_again :
  let once := snd (generateMonthlyPayments 2024 4 only_rent) in
  let second := generateMonthlyPayments 2024 4 once in
  List.length (payments once) = 1%nat
  /\ (exists p, fst second = Ok [p]
                /\ Payment.billId p = Bill.id rent
                /\ Payment.dueDate p = new_Date 2024 4 1)
  /\ List.length (payments (snd second)) = 2%nat
  /\ payments (snd second) <> payments once.
Proof.
  cbv zeta. repeat split.
  - eexists. split; [vm_compute; reflexivity |]. split; reflexivity.
  - vm_compute. discriminate.
Qed.

(** C9: a payment due on 30 April 2024 at 23:59:59.500 lies in April, on
    its last day, and is left out of the April listing and of the April
    sums. *)
Theorem last_second_of_month_not_listed :
  new_Date 2024 3 30 <= late_april < new_Date 2024 4 1
  /\ In late_payment (payments rent_paid_late)
  /\ getPaymentsByMonth 2024 4 rent_paid_late = (Ok [], rent_paid_late)
  /\ getPaymentsSummary 2024 4 rent_paid_late =
     (Ok (mkSummary 0 0 0 0)%float, rent_paid_late).
Proof.
  repeat split; try (vm_compute; congruence).
  now left.
Qed.

(** C10: the window of the duplicate check contains the window of the
    month listing, and strictly: some instant of the last day of the
    month, after 23:59:59 and before midnight, is such that a payment due
    then makes [generateMonthlyPayments] skip its bill although neither
    the listing nor the summary of the month includes it. *)
Theorem duplicate_window_exceeds_listing_window (year month : Z) :
  1 <= month <= 12 ->
  (forall b p,
      Payment.billId p = Bill.id b ->
      in_listing_window year month p = true ->
      in_duplicate_window year month b p = true)
  /\ exists d : Date,
      new_Date year (month - 1) 1 <= d
      /\ new_Date6 year month 0 23 59 59 < d
      /\ d < new_Date year month 1
      /\ forall s b p,
          In p (payments s) ->
          Payment.billId p = Bill.id b ->
          Payment.dueDate p = d ->
          in_duplicate_window year month b p = true
          /\ in_listing_window year month p = false
          /\ (forall acc,
                 generate_for_bill year month acc b s = (Ok acc, s))
          /\ (forall rows s',
                 getPaymentsByMonth year month s = (Ok rows, s') ->
                 ~ In p (map pwb_payment rows))
          /\ getPaymentsSummary year month s =
             (fst (getPaymentsSummary year month
                     (mkStore (bills s)
                        (filter (fun q => negb (Payment.dueDate q =? d))
                           (payments s))
                        (next_id s))), s).
Proof.
  intros Hm.
  pose proof (new_Date_next_month year month Hm) as Hnext.
  pose proof (DaysInMonth_range (full_year year) (month - 1)) as Hlen.
  split.
  - intros b p Hb Hw.
    apply in_listing_window_bounds in Hw.
    apply in_duplicate_window_bounds. lia.
  - exists (new_Date year month 1 - 500).
    rewrite listing_end.
    split; [unfold msPerDay in Hnext; lia |].
    split; [lia |]. split; [lia |].
    intros s b p Hin Hb Hd.
    assert (Hdup : in_duplicate_window year month b p = true).
    { apply in_duplicate_window_bounds. rewrite Hd.
      unfold msPerDay in Hnext. lia. }
    assert (Hlist : forall q, Payment.dueDate q = new_Date year month 1 - 500
                              -> in_listing_window year month q = false).
    { intros q Hq. apply not_true_is_false. intros Hw.
      apply in_listing_window_bounds in Hw. lia. }
    split; [exact Hdup |]. split; [auto |].
    split; [intros acc; eapply generate_for_bill_skip; eauto |].
    split.
    + intros rows s' Hrows Hp.
      destruct (getPaymentsByMonth_rows year month s) as (rows' & E & Hrows').
      rewrite E in Hrows. injection Hrows as <- <-.
      apply Hrows' in Hp. destruct Hp as [_ Hp].
      rewrite Hlist in Hp by assumption. discriminate.
    + rewrite !getPaymentsSummary_rows. cbn [fst payments bills].
      change (include_bill (mkStore (bills s) _ _)) with (include_bill s).
      rewrite filter_narrow; [reflexivity |].
      intros q Hq. destruct (Z.eqb_spec (Payment.dueDate q)
                               (new_Date year month 1 - 500)) as [Eq | Ne];
        [| reflexivity].
      rewrite (Hlist q Eq) in Hq. discriminate.
Qed.

Lemma duplicate_window_exceeds_listing_window_witness :
  exists d : Date,
    new_Date6 2024 4 0 23 59 59 < d < new_Date 2024 4 1
    /\ in_duplicate_window 2024 4 rent
         (Payment.mk 0%nat 0%nat 1500%float PENDING d None None) = true
    /\ in_listing_window 2024 4
         (Payment.mk 0%nat 0%nat 1500%float PENDING d None None) = false.
Proof.
  destruct (duplicate_window_exceeds_listing_window 2024 4 ltac:(lia))
    as (_ & d & H1 & H2 & H3 & H).
  exists d. split; [lia |].
  destruct (H (mkStore [rent]
                 [Payment.mk 0%nat 0%nat 1500%float PENDING d None None]
                 1%nat)
              rent (Payment.mk 0%nat 0%nat 1500%float PENDING d None None)
              (or_introl eq_refl) eq_refl eq_refl) as (Ha & Hb & _).
  split; assumption.
Defined.
End Generation.

(* ===================================================================== *)
(** * The overdue sweep *)
(* ===================================================================== *)

Section Sweep.
Import JSDate Prisma PaymentService.

Lemma is_stale_iff (now : Date) (p : Payment.t) :
  is_stale now p = true
  <-> Payment.status p = PENDING /\ Payment.dueDate p < now.
Proof.
  unfold is_stale. rewrite andb_true_iff, Z.ltb_lt.
  destruct (Payment.status p); cbn; intuition congruence.
Qed.

Lemma sweep_row (now : Date) (p : Payment.t) :
  swept now p
    (if is_stale now p
     then apply_update (mkUpdateData None (Some OVERDUE) None None) p
     else p).
Proof.
  destruct (is_stale now p) eqn:E.
  - apply is_stale_iff in E. destruct E as [Hs Hd].
    unfold swept, apply_update; cbn.
    repeat split; intros; try reflexivity; try congruence; tauto.
  - assert (N : ~ (Payment.status p = PENDING /\ Payment.dueDate p < now)).
    { intros H. apply is_stale_iff in H. congruence. }
    unfold swept. repeat split; intros; try reflexivity; tauto.
Qed.

Lemma sweep_row_changed (now : Date) (p : Payment.t) :
  status_changed
    (p, if is_stale now p
        then apply_update (mkUpdateData None (Some OVERDUE) None None) p
        else p)
  = is_stale now p.
Proof.
  unfold status_changed. cbn [fst snd].
  destruct (is_stale now p) eqn:E.
  - apply is_stale_iff in E. destruct E as [Hs _].
    unfold apply_update; cbn. now rewrite Hs.
  - destruct (Payment.status p); reflexivity.
Qed.

(** C6: for every store and every current time, [updateOverduePayments]
    turns into OVERDUE exactly the payments that are PENDING with a due
    date strictly before now, changes nothing else in them, leaves every
    other payment (in particular every PAID and every OVERDUE one) and
    every bill as it is, and returns the number of payments it turned. *)
Theorem updateOverduePayments_sweeps (now : Date) (s : Store) :
  exists (count : nat) (s' : Store),
    updateOverduePayments now s = (Ok count, s')
    /\ bills s' = bills s
    /\ Forall2 (swept now) (payments s) (payments s')
    /\ count =
       List.length
         (filter status_changed (combine (payments s) (payments s')))
    /\ count =
       List.length (filter (is_stale now) (payments s)).
Proof.
  unfold updateOverduePayments, payment_updateMany.
  do 2 eexists. split; [reflexivity |]. cbn [bills payments].
  split; [reflexivity |].
  induction (payments s) as [| p l (IH1 & IH2 & IH3)].
  - repeat split; constructor.
  - split; [constructor; [apply sweep_row | exact IH1] |].
    split; [| reflexivity].
    cbn [map combine filter].
    rewrite sweep_row_changed.
    destruct (is_stale now p); cbn [List.length]; congruence.
Qed.
End Sweep.

(* ===================================================================== *)
(** * paidDate and status along sequences of calls *)
(* ===================================================================== *)

Section PaidDate.
Import JSDate Prisma PaymentService History Sample.

(** A loop whose body keeps a property of the store keeps it as a
    whole, whether or not an iteration throws. *)
Lemma for_of_keeps {A B : Type} (I : Store -> Prop)
  (body : B -> A -> db B) (xs : list A) :
  (forall acc x s, I s -> I (snd (body acc x s))) ->
  forall acc s, I s -> I (snd (for_of xs body acc s)).
Proof.
  intros Hbody. induction xs as [| x xs IH]; intros acc s Hs;
    [exact Hs |].
  cbn. unfold bind.
  specialize (Hbody acc x s Hs).
  destruct (body acc x s) as [[acc' | e] s1]; cbn in *; auto.
Qed.

Lemma createPayment_keeps_rule (input : CreatePaymentInput) (s : Store) :
  paidDate_rule s -> paidDate_rule (snd (createPayment input s)).
Proof.
  intros H. unfold createPayment, payment_create.
  destruct (bill_lookup s _); [| exact H].
  cbn. unfold paidDate_rule in *. cbn.
  apply Forall_app. split; [exact H |].
  constructor; [| constructor].
  unfold paidDate_iff_PAID; cbn. split; congruence.
Qed.

Lemma generateMonthlyPayments_keeps_rule (year month : Z) (s : Store) :
  paidDate_rule s ->
  paidDate_rule (snd (generateMonthlyPayments year month s)).
Proof.
  intros H. unfold generateMonthlyPayments, bind, bill_findMany.
  apply for_of_keeps; [| exact H].
  clear. intros acc b s H.
  unfold generate_for_bill, bind, payment_findFirst.
  destruct (find _ (payments s)); [exact H |].
  pose proof (createPayment_keeps_rule
                (mkCreatePaymentInput (Bill.id b) (Bill.amount b)
                   (new_Date year (month - 1) (Bill.dueDay b)) None)
                s H) as Hc.
  destruct (createPayment _ s) as [[p | e] s1]; exact Hc.
Qed.

Lemma apply_update_keeps_rule (input : UpdatePaymentInput) (p : Payment.t) :
  settles_or_leaves input ->
  paidDate_iff_PAID p -> paidDate_iff_PAID (apply_update input p).
Proof.
  unfold settles_or_leaves, paidDate_iff_PAID, apply_update.
  intros [[-> ->] | [-> Hd]] Hp; cbn; [exact Hp |].
  destruct (u_paidDate input); [| congruence].
  split; congruence.
Qed.

Lemma updatePayment_keeps_rule (id : Id) (input : UpdatePaymentInput)
  (s : Store) :
  settles_or_leaves input ->
  paidDate_rule s -> paidDate_rule (snd (updatePayment id input s)).
Proof.
  intros Hi H. unfold updatePayment, payment_update.
  destruct (find _ (payments s)); [| exact H].
  unfold paidDate_rule in *. cbn.
  apply Forall_map. eapply Forall_impl; [| exact H].
  intros q Hq. destruct (has_id id q); [| exact Hq].
  now apply apply_update_keeps_rule.
Qed.

Lemma updateOverduePayments_keeps_rule (now : Date) (s : Store) :
  paidDate_rule s -> paidDate_rule (snd (updateOverduePayments now s)).
Proof.
  intros H. unfold updateOverduePayments, payment_updateMany.
  unfold paidDate_rule in *. cbn.
  apply Forall_map. eapply Forall_impl; [| exact H].
  intros q Hq. destruct (is_stale now q) eqn:E; [| exact Hq].
  apply is_stale_iff in E. destruct E as [Hs _].
  unfold paidDate_iff_PAID in *. unfold apply_update; cbn.
  rewrite Hs in Hq. split; [| discriminate].
  intros Hd. apply Hq in Hd. discriminate.
Qed.

Lemma run_keeps_rule (c : call) (s : Store) :
  careful c -> paidDate_rule s -> paidDate_rule (run c s).
Proof.
  destruct c; cbn; intros Hc H.
  - now apply createPayment_keeps_rule.
  - now apply generateMonthlyPayments_keeps_rule.
  - now apply updatePayment_keeps_rule.
  - apply updatePayment_keeps_rule; [| exact H].
    right. cbn. split; [reflexivity | discriminate].
  - now apply updateOverduePayments_keeps_rule.
Qed.

(** C8, as the code has it: along every sequence of calls of
    [createPayment], [generateMonthlyPayments], [markAsPaid],
    [updateOverduePayments] and of [updatePayment] with an input that
    either leaves [status] and [paidDate] alone or sets [status] to PAID
    together with a [paidDate], started from a store in which every
    payment has a paidDate exactly when it is PAID (for one, a store
    without payments), every payment has a paidDate exactly when it is
    PAID. *)
Theorem paidDate_rule_kept (cs : list call) (s : Store) :
  paidDate_rule s ->
  Forall careful cs ->
  paidDate_rule (run_all cs s).
Proof.
  unfold run_all. revert s.
  induction cs as [| c cs IH]; intros s Hs Hcs; [exact Hs |].
  inversion Hcs as [| c' cs' Hc Hrest]; subst.
  cbn. apply IH; [| exact Hrest].
  now apply run_keeps_rule.
Qed.

Lemma paidDate_rule_kept_witness :
  paidDate_rule
    (run_all
       [GenerateMonthlyPayments 2024 4;
        MarkAsPaid (new_Date 2024 3 5) 0%nat None;
        UpdateOverduePayments (new_Date 2024 5 1)]
       only_rent).
Proof.
  apply paidDate_rule_kept.
  - constructor.
  - repeat constructor.
Defined.

(** C8, as stated, fails: [updatePayment] with input [{ status: 'PAID' }]
    on a fresh payment leaves it PAID without a paidDate. *)
Lemma paidDate_rule_broken_by_updatePayment :
  ~ (forall (cs : list call) (s : Store),
        payments s = [] -> paidDate_rule (run_all cs s)).
Proof.
  intros H.
  specialize (H [CreatePayment
                   (mkCreatePaymentInput 0%nat 1500%float
                      (new_Date 2024 3 5) None);
                 UpdatePayment 0%nat
                   (mkUpdateData None (Some PAID) None None)]
                only_rent eq_refl).
  vm_compute in H.
  inversion H as [| p l Hp _]; subst.
  destruct Hp as [_ Hp]. now apply Hp.
Qed.
End PaidDate.

(* ===================================================================== *)
(** * Facts on binary64 numbers *)
(* ===================================================================== *)

Section FloatFacts.
Local Open Scope float_scope.

Lemma SFcompare_antisym (x y : spec_float) :
  SFcompare x y = option_map CompOpp (SFcompare y x).
Proof.
  destruct x as [[|] | [|] | | [|] mx ex], y as [[|] | [|] | | [|] my ey];
    cbn; try reflexivity.
  all: rewrite (Z.compare_antisym ey ex);
    destruct (ey ?= ex)%Z; cbn; try reflexivity.
  all: rewrite (Pos.compare_cont_antisym my mx Eq); cbn;
    try reflexivity.
Qed.

Lemma eqb_zero (x : float) :
  (x =? 0) = true -> exists s, Prim2SF x = S754_zero s.
Proof.
  rewrite eqb_spec. unfold SFeqb.
  change (Prim2SF 0) with (S754_zero false).
  destruct (Prim2SF x) as [s | s | | s m e]; cbn; try discriminate;
    [eauto | destruct s; discriminate ..].
Qed.

Lemma eqb_nonzero (x : float) :
  (x =? 0) = false -> forall s, Prim2SF x <> S754_zero s.
Proof.
  rewrite eqb_spec. unfold SFeqb.
  change (Prim2SF 0) with (S754_zero false).
  intros H s E. rewrite E in H. discriminate.
Qed.

Lemma ltb_zero_positive (x : float) : (0 <? x) = true <-> positive x.
Proof.
  rewrite ltb_spec. unfold SFltb, positive.
  change (Prim2SF 0) with (S754_zero false).
  destruct (Prim2SF x) as [s | [|] | | [|] m e]; cbn;
    intuition discriminate.
Qed.

Lemma positive_nonzero (x : float) :
  positive x -> forall s, Prim2SF x <> S754_zero s.
Proof. unfold positive. intros H s E. now rewrite E in H. Qed.

Lemma abs_positive (x : float) : positive x -> abs x = x.
Proof.
  intros H. apply Prim2SF_inj. rewrite abs_spec.
  unfold positive in H.
  destruct (Prim2SF x) as [s | [|] | | [|] m e]; cbn; tauto.
Qed.

Lemma leb_ltb_false (c x : float) : (c <=? x) = true -> (x <? c) = false.
Proof.
  rewrite leb_spec, ltb_spec. unfold SFleb, SFltb.
  rewrite (SFcompare_antisym (Prim2SF x)).
  destruct (SFcompare (Prim2SF c) (Prim2SF x)) as [[| |] |]; cbn;
    congruence.
Qed.

Lemma ltb_asym (x y : float) : (x <? y) = true -> (y <? x) = false.
Proof.
  rewrite !ltb_spec. unfold SFltb.
  rewrite (SFcompare_antisym (Prim2SF y)).
  destruct (SFcompare (Prim2SF x) (Prim2SF y)) as [[| |] |]; cbn;
    congruence.
Qed.

(** Whatever is at least 0.01 is greater than zero. *)
Lemma leb_cent_positive (x : float) : (0.01 <=? x) = true -> positive x.
Proof.
  rewrite leb_spec. unfold SFleb, positive.
  set (c := Prim2SF 0.01). vm_compute in c. subst c.
  destruct (Prim2SF x) as [s | [|] | | [|] m e]; cbn;
    try discriminate; tauto.
Qed.

(** Subtracting a zero from a number that is not a zero returns the
    number. *)
Lemma sub_zero (x z : float) :
  (z =? 0) = true ->
  (forall s, Prim2SF x <> S754_zero s) ->
  x - z = x.
Proof.
  intros Hz Hx. apply eqb_zero in Hz. destruct Hz as [sz Hz].
  apply Prim2SF_inj. rewrite sub_spec, Hz.
  unfold SF64sub, SFsub.
  destruct (Prim2SF x) as [s | s | | s m e]; try reflexivity.
  now elim (Hx s).
Qed.

(** The difference of two zeros is a zero. *)
Lemma sub_zeros (x z : float) :
  (x =? 0) = true -> (z =? 0) = true ->
  exists s, Prim2SF (x - z) = S754_zero s.
Proof.
  intros Hx Hz.
  apply eqb_zero in Hx. destruct Hx as [sx Hx].
  apply eqb_zero in Hz. destruct Hz as [sz Hz].
  rewrite sub_spec, Hx, Hz. unfold SF64sub, SFsub.
  destruct sx, sz; eauto.
Qed.

Lemma abs_zero_below_cent (x : float) (s : bool) :
  Prim2SF x = S754_zero s -> (abs x <? 0.01) = true.
Proof.
  intros H. rewrite ltb_spec, abs_spec, H. reflexivity.
Qed.
End FloatFacts.

(* ===================================================================== *)
(** * Comparison metrics *)
(* ===================================================================== *)

Section Metrics.
Local Open Scope float_scope.

Lemma createMetric_delta_and_trend (name : string)
  (oldest middle newest : float) :
  delta_and_trend (createMetric name [oldest; middle; newest])
    oldest middle newest.
Proof.
  unfold delta_and_trend, createMetric, index. cbn.
  split; [reflexivity |]. split; [reflexivity |].
  destruct (abs (newest - middle) <? 0.01) eqn:Eabs.
  - repeat split; intros; congruence.
  - destruct (0 <? newest - middle) eqn:Epos.
    + repeat split; intros; try congruence.
      apply ltb_asym in Epos. congruence.
    + repeat split; intros; congruence.
Qed.

(** C5: for each of the four metrics computed from three period
    summaries in chronological order, [change] is the newest value minus
    the middle one (the oldest is not used), and [trend] is STABLE
    exactly when |change| < 0.01, and otherwise UP when change > 0 and
    DOWN when change < 0. *)
Theorem calculateComparisonMetrics_delta_and_trend (s0 s1 s2 : MonthSummary) :
  let ms := calculateComparisonMetrics [s0; s1; s2] in
  delta_and_trend (m_total ms)
    (total (ms_summary s0)) (total (ms_summary s1)) (total (ms_summary s2))
  /\ delta_and_trend (m_paid ms)
    (paid (ms_summary s0)) (paid (ms_summary s1)) (paid (ms_summary s2))
  /\ delta_and_trend (m_pending ms)
    (pending (ms_summary s0)) (pending (ms_summary s1))
    (pending (ms_summary s2))
  /\ delta_and_trend (m_overdue ms)
    (overdue (ms_summary s0)) (overdue (ms_summary s1))
    (overdue (ms_summary s2)).
Proof.
  cbv zeta. unfold calculateComparisonMetrics. cbn [map m_total m_paid m_pending m_overdue].
  repeat split; apply createMetric_delta_and_trend.
Qed.

Lemma createMetric_percentage (name : string) (oldest middle newest : float) :
  percentageChange (createMetric name [oldest; middle; newest]) =
  if middle =? 0 then None
  else Some ((newest - middle) / middle * 100).
Proof.
  unfold createMetric, index. cbn. now destruct (middle =? 0).
Qed.

Lemma createMetric_trend (name : string) (oldest middle newest : float) :
  trend (createMetric name [oldest; middle; newest]) =
  if abs (newest - middle) <? 0.01 then stable
  else if 0 <? newest - middle then up else down.
Proof. reflexivity. Qed.

(** C4, as the code has it: whenever the middle value is a zero,
    [percentageChange] is null; if moreover the newest value is a zero,
    [trend] is STABLE; if the newest value is at least 0.01, [trend] is
    UP; if the newest value is above zero and below 0.01, [trend] is
    STABLE.  Whenever the middle value is not a zero, [percentageChange]
    is (change / middle) * 100. *)
Theorem createMetric_zero_middle (name : string)
  (oldest middle newest : float) :
  let m := createMetric name [oldest; middle; newest] in
  ((middle =? 0) = true ->
     percentageChange m = None
     /\ ((newest =? 0) = true -> trend m = stable)
     /\ ((0.01 <=? newest) = true -> trend m = up)
     /\ ((0 <? newest) = true -> (newest <? 0.01) = true ->
         trend m = stable))
  /\ ((middle =? 0) = false ->
      change m = newest - middle
      /\ percentageChange m = Some (change m / middle * 100)).
Proof.
  cbv zeta. split.
  - intros Hz. rewrite createMetric_percentage, createMetric_trend, Hz.
    split; [reflexivity |]. split; [| split].
    + intros Hn. destruct (sub_zeros newest middle Hn Hz) as [s Hs].
      now rewrite (abs_zero_below_cent _ _ Hs).
    + intros Hn. pose proof (leb_cent_positive _ Hn) as Hp.
      rewrite (sub_zero newest middle Hz (positive_nonzero _ Hp)).
      rewrite (abs_positive _ Hp), (leb_ltb_false _ _ Hn).
      apply ltb_zero_positive in Hp. now rewrite Hp.
    + intros Hpos Hsmall. apply ltb_zero_positive in Hpos.
      rewrite (sub_zero newest middle Hz (positive_nonzero _ Hpos)).
      now rewrite (abs_positive _ Hpos), Hsmall.
  - intros Hnz. rewrite createMetric_percentage, Hnz.
    split; reflexivity.
Qed.

Lemma createMetric_zero_middle_witness :
  percentageChange (createMetric "Pending" [100; 0; 50]) = None
  /\ trend (createMetric "Pending" [100; 0; 50]) = up
  /\ trend (createMetric "Pending" [100; 0; 0]) = stable
  /\ percentageChange (createMetric "Pending" [100; 200; 150])
     = Some (-25).
Proof.
  destruct (createMetric_zero_middle "Pending" 100 0 50) as [H _].
  destruct (H eq_refl) as (Hnull & _ & Hup & _).
  destruct (createMetric_zero_middle "Pending" 100 0 0) as [H0 _].
  destruct (H0 eq_refl) as (_ & Hstable & _).
  destruct (createMetric_zero_middle "Pending" 100 200 150) as [_ H1].
  destruct (H1 eq_refl) as [_ Hpct].
  exact (conj Hnull
           (conj (Hup eq_refl) (conj (Hstable eq_refl) Hpct))).
Defined.

(** C4, as stated, fails: with a middle value of 0 and a newest value of
    0.005, which is above zero, [trend] is STABLE and not UP. *)
Lemma zero_middle_small_newest_not_up :
  ~ (forall (name : string) (oldest middle newest : float),
        (middle =? 0) = true -> (0 <? newest) = true ->
        percentageChange (createMetric name [oldest; middle; newest])
        = None
        /\ trend (createMetric name [oldest; middle; newest]) = up).
Proof.
  intros H.
  destruct (H "Pending"%string 0 0 0.005 eq_refl eq_refl) as [_ Hup].
  vm_compute in Hup. discriminate.
Qed.
End Metrics.

(* ===================================================================== *)
(** * Conservation of the monthly sums *)
(* ===================================================================== *)

Section Conservation.
Import JSDate Prisma PaymentService Sample.

Section Loop.
Context {P num : Type}.
Variable zero : num.
Variable add : num -> num -> num.
Variable amount_of : P -> num.
Variable status_of : P -> PaymentStatus.




Hypothesis add_assoc : forall a b c, add a (add b c) = add (add a b) c.
Hypothesis add_comm : forall a b, add a b = add b a.
Hypothesis add_zero : forall a, add zero a = a.

End Loop.



End Conservation.

(* ===================================================================== *)
(** * Repeating the generation when every due day exists in the month *)
(* ===================================================================== *)

Section Repetition.
Import JSDate Prisma PaymentService.

Variables year month : Z.
Hypothesis month_range : 1 <= month <= 12.

Lemma generate_for_bill_creates (acc : list Payment.t) (b : Bill.t)
  (s : Store) :
  In b (bills s) -> day_exists year month b ->
  exists acc' s',
    generate_for_bill year month acc b s = (Ok acc', s')
    /\ bills s' = bills s
    /\ incl (payments s) (payments s')
    /\ covered year month s' b.
Proof.
  intros Hb Hday.
  unfold generate_for_bill, bind, payment_findFirst.
  destruct (find (in_duplicate_window year month b) (payments s))
    as [q |] eqn:Efind.
  - exists acc, s. repeat split; [apply incl_refl |].
    exists q. apply find_some in Efind. exact Efind.
  - unfold createPayment, payment_create. cbn [c_billId in_billId].
    destruct (find_In_some (fun b' => Nat.eqb (Bill.id b') (Bill.id b))
                (bills s) b Hb (Nat.eqb_refl _)) as [b' Eb].
    unfold bill_lookup. rewrite Eb. cbn.
    do 2 eexists. split; [reflexivity |]. cbn.
    split; [reflexivity |].
    split; [apply incl_appl, incl_refl |].
    eexists. split; [apply in_or_app; right; left; reflexivity |].
    apply in_duplicate_window_bounds. cbn.
    split; [reflexivity |].
    now apply new_Date_in_month.
Qed.

Lemma covered_mono (s s' : Store) (b : Bill.t) :
  incl (payments s) (payments s') -> covered year month s b -> covered year month s' b.
Proof. intros Hi (p & Hp & Hw). exists p. auto. Qed.

Lemma first_pass (bs : list Bill.t) :
  forall acc s,
    (forall b, In b bs -> In b (bills s) /\ day_exists year month b) ->
    exists acc' s',
      for_of bs (generate_for_bill year month) acc s = (Ok acc', s')
      /\ bills s' = bills s
      /\ incl (payments s) (payments s')
      /\ forall b, In b bs -> covered year month s' b.
Proof.
  induction bs as [| b bs IH]; intros acc s H.
  - exists acc, s. repeat split; [apply incl_refl | intros b []].
  - destruct (H b (or_introl eq_refl)) as [Hb Hday].
    destruct (generate_for_bill_creates acc b s Hb Hday)
      as (acc1 & s1 & E1 & Hbills1 & Hincl1 & Hcov1).
    destruct (IH acc1 s1) as (acc2 & s2 & E2 & Hbills2 & Hincl2 & Hcov2).
    { intros b' Hb'. rewrite Hbills1. apply H. now right. }
    exists acc2, s2. cbn [for_of]. unfold bind at 1. rewrite E1.
    split; [exact E2 |]. split; [congruence |].
    split; [eapply incl_tran; eassumption |].
    intros b' [<- | Hb']; [| auto].
    eapply covered_mono; eassumption.
Qed.

Lemma second_pass (bs : list Bill.t) :
  forall acc s,
    (forall b, In b bs -> covered year month s b) ->
    for_of bs (generate_for_bill year month) acc s = (Ok acc, s).
Proof.
  induction bs as [| b bs IH]; intros acc s H; [reflexivity |].
  cbn [for_of]. unfold bind at 1.
  destruct (H b (or_introl eq_refl)) as (p & Hp & Hw).
  rewrite (generate_for_bill_skip year month acc b s p Hp Hw).
  apply IH. intros b' Hb'. apply H. now right.
Qed.

(** When the due day of every active bill is a day of the target month,
    generating twice in a row is generating once: the second call returns
    the empty list and leaves the store of the first. *)
Lemma generate_twice_when_days_exist (s : Store) :
  (forall b, In b (bills s) -> Bill.active b = true -> day_exists year month b) ->
  exists created s1,
    generateMonthlyPayments year month s = (Ok created, s1)
    /\ generateMonthlyPayments year month s1 = (Ok [], s1).
Proof.
  intros Hdays.
  unfold generateMonthlyPayments, bind, bill_findMany.
  destruct (first_pass (filter Bill.active (bills s)) [] s)
    as (created & s1 & E1 & Hbills & _ & Hcov).
  { intros b Hb. apply filter_In in Hb. destruct Hb. auto. }
  exists created, s1. split; [exact E1 |].
  rewrite Hbills. now apply second_pass.
Qed.
End Repetition.

(* ===================================================================== *)
(** * The scenarios of the specification, evaluated *)
(* ===================================================================== *)

Section Scenarios.
Import JSDate Prisma PaymentService Sample.
Local Open Scope float_scope.

Example epoch : new_Date 1970 0 1 = 0%Z.
Proof. reflexivity. Qed.

Example first_of_2024 : new_Date 2024 0 1 = 1704067200000%Z.
Proof. reflexivity. Qed.

(** Pending sums 100, 200, 150: change -50, percentage -25, trend DOWN. *)
Example pending_goes_down :
  createMetric "Pending" [100; 200; 150] =
  mkComparisonMetric "Pending" [100; 200; 150] (-50) (Some (-25)) down.
Proof. reflexivity. Qed.

(** Middle sum 0, newest 50: change 50, no percentage, trend UP. *)
Example pending_from_nothing :
  createMetric "Pending" [0; 0; 50] =
  mkComparisonMetric "Pending" [0; 0; 50] 50 None up.
Proof. reflexivity. Qed.

(** A payment due on 1 January 2024 and still pending is turned OVERDUE by
    a sweep run on 1 June 2024, and its amount moves from [pending] to
    [overdue] in the next summary of January. *)
Example sweep_moves_pending_to_overdue :
  let before := getPaymentsSummary 2024 1 rent_unpaid in
  let sweep := updateOverduePayments (new_Date 2024 5 1) rent_unpaid in
  let after := getPaymentsSummary 2024 1 (snd sweep) in
  fst before = Ok (mkSummary 1500 0 1500 0)
  /\ fst sweep = Ok 1%nat
  /\ map Payment.status (payments (snd sweep)) = [OVERDUE]
  /\ fst after = Ok (mkSummary 1500 0 0 1500).
Proof. repeat split. Qed.
End Scenarios.

(* ===================================================================== *)
(** * The comparison report as a whole *)
(* ===================================================================== *)

Section Report.
Import JSDate Prisma PaymentService.

Variable formatMonth : Date -> string.

Lemma month_summary_reads (ym : YearMonth) (s : Store) :
  exists m,
    month_summary formatMonth ym s = (Ok m, s)
    /\ ms_year m = ym_year ym /\ ms_month m = ym_month ym.
Proof.
  unfold month_summary, bind. rewrite getPaymentsSummary_rows.
  eexists. split; [reflexivity |]. split; reflexivity.
Qed.

Lemma summaries_follow_months (yms : list YearMonth) :
  forall (done : list MonthSummary) (s : Store),
  exists l,
    for_of yms
      (fun done ym =>
         m <- month_summary formatMonth ym ;; ret (done ++ [m]))
      done s
    = (Ok (done ++ l), s)
    /\ map (fun m => mkYearMonth (ms_year m) (ms_month m)) l = yms.
Proof.
  induction yms as [| ym yms IH]; intros done s.
  - exists []. rewrite app_nil_r. split; reflexivity.
  - destruct (month_summary_reads ym s) as (m & Em & Hy & Hm).
    destruct (IH (done ++ [m]) s) as (l & El & Hl).
    exists (m :: l). cbn [for_of]. unfold bind at 1. unfold bind at 1.
    rewrite Em. unfold ret at 1. rewrite El, <- app_assoc.
    split; [reflexivity |].
    cbn [map]. rewrite Hy, Hm, Hl. now destruct ym.
Qed.

(** The report never throws and writes nothing; its period summaries are
    those of the months of [calculatePreviousMonths year month 3], in that
    order, and its metrics are computed from them. *)
Lemma getPaymentComparison_reads (year month : Z) (s : Store) :
  exists r,
    getPaymentComparison formatMonth year month s = (Ok r, s)
    /\ map (fun m => mkYearMonth (ms_year m) (ms_month m)) (months r)
       = calculatePreviousMonths year month 3
    /\ metrics r = calculateComparisonMetrics (months r).
Proof.
  unfold getPaymentComparison. cbv zeta. unfold bind at 1.
  destruct (summaries_follow_months
              (calculatePreviousMonths year month 3) [] s)
    as (l & El & Hl).
  rewrite El. eexists. split; [reflexivity |].
  split; [exact Hl | reflexivity].
Qed.
End Report.

(* ===================================================================== *)
(** * [calculatePreviousMonths] for any number of months *)
(* ===================================================================== *)

Section AnyCount.

(** The inner loop keeps the month count [12 * year + month], stops at the
    first month number that is at least 1, and returns it unchanged when
    it starts there. *)
Lemma year_boundary_normal (m y : Z) :
  ym_year (year_boundary m y) * 12 + ym_month (year_boundary m y)
  = y * 12 + m
  /\ (m <= 12 -> 1 <= ym_month (year_boundary m y) <= 12)
  /\ (1 <= m -> year_boundary m y = mkYearMonth y m).
Proof.
  remember (Z.to_nat (1 - m)) as n eqn:En. revert m y En.
  induction n as [n IH] using lt_wf_ind. intros m y En.
  rewrite year_boundary_equation_1.
  destruct (Z_lt_dec m 1) as [Hlt | Hge]; cbn.
  - destruct (IH (Z.to_nat (1 - (m + 12))) ltac:(lia) (m + 12) (y - 1)
                eq_refl) as (H1 & H2 & _).
    split; [lia |]. split; [intros _; apply H2; lia | lia].
  - split; [lia |]. split; [lia | reflexivity].
Qed.

Lemma months_loop_unrolled (n : nat) :
  forall (y m : Z) (acc : list YearMonth),
    months_loop y m (Z.of_nat n - 1) acc =
    acc ++ map (fun j => year_boundary (m - (Z.of_nat n - 1 - Z.of_nat j)) y)
             (seq 0 n).
Proof.
  induction n as [| n IH]; intros y m acc.
  - rewrite months_loop_stop by lia. cbn. now rewrite app_nil_r.
  - rewrite months_loop_step by lia.
    replace (Z.of_nat (S n) - 1 - 1) with (Z.of_nat n - 1) by lia.
    rewrite IH, <- app_assoc. f_equal. cbn [seq map app].
    replace (m - (Z.of_nat (S n) - 1 - Z.of_nat 0))
      with (m - (Z.of_nat (S n) - 1)) by lia.
    f_equal. rewrite <- seq_shift, map_map.
    apply map_ext. intros j. f_equal. lia.
Qed.

(** X1: for a target month in 1..12 and any count,
    [calculatePreviousMonths] returns [count] entries (none for a count of
    zero or less), each with a month number in 1..12, running through
    consecutive calendar months and ending with the target. *)
Theorem calculatePreviousMonths_consecutive (year month count : Z) :
  1 <= month <= 12 ->
  let r := calculatePreviousMonths year month count in
  List.length r = Z.to_nat count
  /\ forall k : nat,
      (k < Z.to_nat count)%nat ->
      exists p,
        nth_error r k = Some p
        /\ 1 <= ym_month p <= 12
        /\ ym_year p * 12 + ym_month p
           = year * 12 + month - (count - 1 - Z.of_nat k).
Proof.
  intros Hm r. subst r. unfold calculatePreviousMonths.
  destruct (Z_le_gt_dec count 0) as [Hc | Hc].
  - rewrite months_loop_stop by lia.
    replace (Z.to_nat count) with 0%nat by lia.
    split; [reflexivity | intros k Hk; lia].
  - replace (count - 1) with (Z.of_nat (Z.to_nat count) - 1) by lia.
    rewrite months_loop_unrolled. cbn [app].
    split; [now rewrite length_map, length_seq |].
    intros k Hk.
    eexists. split.
    + rewrite nth_error_map, nth_error_seq.
      destruct (Nat.ltb_spec k (Z.to_nat count)); [| lia].
      reflexivity.
    + cbn [Nat.add].
      destruct (year_boundary_normal
                  (month - (Z.of_nat (Z.to_nat count) - 1 - Z.of_nat k))
                  year) as (H1 & H2 & _).
      split; [apply H2; lia | lia].
Qed.

Lemma calculatePreviousMonths_consecutive_witness :
  List.length (calculatePreviousMonths 2024 2 14) = 14%nat
  /\ exists p,
      nth_error (calculatePreviousMonths 2024 2 14) 0 = Some p
      /\ 1 <= ym_month p <= 12
      /\ ym_year p * 12 + ym_month p = 2024 * 12 + 2 - 13.
Proof.
  destruct (calculatePreviousMonths_consecutive 2024 2 14 ltac:(lia))
    as [Hlen Hnth].
  exact (conj Hlen (Hnth 0%nat ltac:(cbn; lia))).
Defined.
End AnyCount.

(* ===================================================================== *)
(** * Ordered results *)
(* ===================================================================== *)

Section Ordered.
Context {A : Type}.
Variable before : A -> A -> bool.

(** [x] may stand in front of [y]. *)
Let fits (x y : A) : Prop := before y x = false.

Hypothesis before_asym : forall x y, before x y = true -> before y x = false.
Hypothesis fits_trans : forall x y z, fits x y -> fits y z -> fits x z.

Lemma insert_by_perm (x : A) (l : list A) :
  Permutation (x :: l) (insert_by before x l).
Proof.
  induction l as [| y l IH]; cbn; [reflexivity |].
  destruct (before x y); [reflexivity |].
  rewrite perm_swap. now constructor.
Qed.

Lemma orderBy_perm (l : list A) : Permutation l (orderBy before l).
Proof.
  unfold orderBy.
  assert (H : forall acc,
             Permutation (l ++ acc)
               (fold_left (fun sorted x => insert_by before x sorted) l acc)).
  { induction l as [| x l IH]; intros acc; cbn; [reflexivity |].
    rewrite <- IH, <- insert_by_perm. now rewrite Permutation_middle. }
  specialize (H []). now rewrite app_nil_r in H.
Qed.

Lemma insert_by_sorted (x : A) (l : list A) :
  StronglySorted fits l -> StronglySorted fits (insert_by before x l).
Proof.
  induction 1 as [| y l Hs IH Hy]; cbn.
  - constructor; constructor.
  - destruct (before x y) eqn:E.
    + constructor; [now constructor |].
      constructor; [now apply before_asym |].
      eapply Forall_impl; [| exact Hy].
      intros z Hz. eapply fits_trans; [| exact Hz]. now apply before_asym.
    + constructor; [exact IH |].
      eapply Permutation_Forall; [apply insert_by_perm |].
      constructor; assumption.
Qed.

Lemma orderBy_sorted (l : list A) : StronglySorted fits (orderBy before l).
Proof.
  unfold orderBy.
  assert (H : forall acc,
             StronglySorted fits acc ->
             StronglySorted fits
               (fold_left (fun sorted x => insert_by before x sorted) l acc)).
  { induction l as [| x l IH]; intros acc Hacc; [exact Hacc |].
    cbn. apply IH. now apply insert_by_sorted. }
  apply H. constructor.
Qed.
End Ordered.

Lemma StronglySorted_weaken {A : Type} (R R' : A -> A -> Prop)
  (l : list A) :
  (forall x y, R x y -> R' x y) ->
  StronglySorted R l -> StronglySorted R' l.
Proof.
  intros H. induction 1 as [| x l Hs IH Hx]; constructor; [exact IH |].
  eapply Forall_impl; [| exact Hx]. intros y. apply H.
Qed.

Lemma orderBy_asc_sorted {A : Type} (column : A -> Z) (l : list A) :
  StronglySorted (fun x y => column x <= column y) (orderBy (asc column) l).
Proof.
  eapply StronglySorted_weaken; [| apply orderBy_sorted].
  - unfold asc. intros x y H. apply Z.ltb_ge in H. exact H.
  - unfold asc. intros x y H. apply Z.ltb_lt in H. apply Z.ltb_ge. lia.
  - unfold asc. intros x y z H1 H2.
    apply Z.ltb_ge in H1, H2. apply Z.ltb_ge. lia.
Qed.

Lemma orderBy_desc_sorted {A : Type} (column : A -> Z) (l : list A) :
  StronglySorted (fun x y => column y <= column x) (orderBy (desc column) l).
Proof.
  eapply StronglySorted_weaken; [| apply orderBy_sorted].
  - unfold desc. intros x y H. apply Z.ltb_ge in H. exact H.
  - unfold desc. intros x y H. apply Z.ltb_lt in H. apply Z.ltb_ge. lia.
  - unfold desc. intros x y z H1 H2.
    apply Z.ltb_ge in H1, H2. apply Z.ltb_ge. lia.
Qed.

Lemma orderBy_dueDate_asc_generic (l : list Payment.t) :
  orderBy_dueDate_asc l = orderBy (asc Payment.dueDate) l.
Proof.
  unfold orderBy_dueDate_asc, orderBy.
  generalize (@nil Payment.t) as acc.
  induction l as [| p l IH]; intros acc; [reflexivity |].
  cbn. rewrite IH. reflexivity.
Qed.

(* ===================================================================== *)
(** * The listings *)
(* ===================================================================== *)

Section Listings.
Import JSDate Prisma Queries PaymentService PaymentReads Commands.

Lemma map_pwb_payment_include (s : Store) (l : list Payment.t) :
  map pwb_payment (map (include_bill s) l) = l.
Proof. rewrite map_map. cbn. apply map_id. Qed.

(** X2: the listing of a month never writes; its rows are the stored
    payments whose due date lies in the listing window, each once, in
    ascending order of due date. *)
Theorem getPaymentsByMonth_ordered (year month : Z) (s : Store) :
  exists rows,
    getPaymentsByMonth year month s = (Ok rows, s)
    /\ Permutation (filter (in_listing_window year month) (payments s))
         (map pwb_payment rows)
    /\ StronglySorted
         (fun p q => Payment.dueDate p <= Payment.dueDate q)
         (map pwb_payment rows).
Proof.
  unfold getPaymentsByMonth, payment_findMany_asc.
  eexists. split; [reflexivity |].
  rewrite map_pwb_payment_include, orderBy_dueDate_asc_generic.
  split; [apply orderBy_perm | apply orderBy_asc_sorted].
Qed.

(** X3: [getAllPayments] never writes; its rows are all stored payments,
    each once, in descending order of due date. *)
Theorem getAllPayments_ordered (s : Store) :
  exists rows,
    getAllPayments s = (Ok rows, s)
    /\ Permutation (payments s) (map pwb_payment rows)
    /\ StronglySorted
         (fun p q => Payment.dueDate q <= Payment.dueDate p)
         (map pwb_payment rows).
Proof.
  unfold getAllPayments, payment_findMany_desc.
  eexists. split; [reflexivity |].
  rewrite map_pwb_payment_include.
  split; [apply orderBy_perm | apply orderBy_desc_sorted].
Qed.

Lemma filter_unpaid_split (l : list Payment.t) :
  Permutation
    (filter (fun p => negb (PaymentStatus_eqb (Payment.status p) PAID)) l)
    (filter (fun p => PaymentStatus_eqb (Payment.status p) PENDING) l
     ++ filter (fun p => PaymentStatus_eqb (Payment.status p) OVERDUE) l).
Proof.
  induction l as [| p l IH]; [reflexivity |].
  cbn [filter]. destruct (Payment.status p); cbn.
  - now constructor.
  - exact IH.
  - rewrite <- Permutation_middle. now constructor.
Qed.

(** X4: the payments offered by the mark-as-paid command are the stored
    payments that are not PAID, each once: the PENDING ones first, then the
    OVERDUE ones; no PAID payment is offered. *)
Theorem unpaidPayments_are_the_unpaid (s : Store) :
  exists pendingPayments overduePayments,
    unpaidPayments s = (Ok (pendingPayments ++ overduePayments), s)
    /\ getPaymentsByStatus PENDING s = (Ok pendingPayments, s)
    /\ getPaymentsByStatus OVERDUE s = (Ok overduePayments, s)
    /\ Forall (fun r => Payment.status (pwb_payment r) = PENDING)
         pendingPayments
    /\ Forall (fun r => Payment.status (pwb_payment r) = OVERDUE)
         overduePayments
    /\ Permutation
         (filter
            (fun p => negb (PaymentStatus_eqb (Payment.status p) PAID))
            (payments s))
         (map pwb_payment (pendingPayments ++ overduePayments)).
Proof.
  unfold unpaidPayments, getPaymentsByStatus, payment_findMany_asc, bind, ret.
  do 2 eexists. split; [reflexivity |].
  split; [reflexivity |]. split; [reflexivity |].
  assert (Hst : forall st,
             Forall (fun r => Payment.status (pwb_payment r) = st)
               (map (include_bill s)
                  (orderBy_dueDate_asc
                     (filter
                        (fun p => PaymentStatus_eqb (Payment.status p) st)
                        (payments s))))).
  { intros st. apply Forall_forall. intros r Hr.
    apply in_map_iff in Hr. destruct Hr as (p & <- & Hp).
    apply orderBy_dueDate_asc_In, filter_In in Hp. destruct Hp as [_ Hp].
    cbn. destruct (Payment.status p), st; (reflexivity || discriminate). }
  split; [apply Hst |]. split; [apply Hst |].
  rewrite map_app, !map_pwb_payment_include.
  rewrite filter_unpaid_split.
  apply Permutation_app; apply orderBy_dueDate_asc_perm.
Qed.

(** X5: the sums of a month only depend on the payments in its listing
    window: a store and the store cut down to that window have the same
    sums; with no payment in the window all four sums are zero. *)
Theorem getPaymentsSummary_window_only (year month : Z) (s : Store) :
  fst (getPaymentsSummary year month s)
  = fst (getPaymentsSummary year month
           (mkStore (bills s)
              (filter (in_listing_window year month) (payments s))
              (next_id s)))
  /\ snd (getPaymentsSummary year month s) = s
  /\ (filter (in_listing_window year month) (payments s) = [] ->
      getPaymentsSummary year month s
      = (Ok (mkSummary 0 0 0 0)%float, s)).
Proof.
  rewrite !getPaymentsSummary_rows. cbn [fst snd payments bills].
  change (include_bill (mkStore (bills s) _ _)) with (include_bill s).
  rewrite filter_narrow by auto.
  split; [reflexivity |]. split; [reflexivity |].
  intros ->. reflexivity.
Qed.

Lemma getPaymentsSummary_window_only_witness :
  getPaymentsSummary 2024 4 Sample.only_rent
  = (Ok (mkSummary 0 0 0 0)%float, Sample.only_rent).
Proof.
  destruct (getPaymentsSummary_window_only 2024 4 Sample.only_rent)
    as (_ & _ & H).
  exact (H eq_refl).
Defined.
End Listings.

(* ===================================================================== *)
(** * The comparison report, period by period *)
(* ===================================================================== *)

Section ReportContents.
Import JSDate Prisma PaymentService.

Variable formatMonth : Date -> string.




End ReportContents.


(* ===================================================================== *)
(** * What payment generation writes *)
(* ===================================================================== *)

Section Generated.
Import JSDate Prisma PaymentService.

Variables year month : Z.

Lemma find_app_none {A : Type} (f : A -> bool) (l1 l2 : list A) :
  find f (l1 ++ l2) = None <-> find f l1 = None /\ find f l2 = None.
Proof.
  induction l1 as [| a l1 IH]; cbn; [tauto |].
  destruct (f a); [| exact IH].
  split; [discriminate | intros [H _]; discriminate].
Qed.

Lemma find_none_existsb {A : Type} (f : A -> bool) (l : list A) :
  find f l = None <-> existsb f l = false.
Proof.
  induction l as [| a l IH]; cbn; [tauto |].
  destruct (f a); cbn; [split; discriminate | exact IH].
Qed.

(** One iteration on a bill of the store: either the bill is skipped, or
    the row [generated] for it is appended under the next id. *)
Lemma generate_for_bill_cases (acc : list Payment.t) (b : Bill.t)
  (s : Store) :
  In b (bills s) ->
  (has_payment_in_window year month (payments s) b = true
   /\ generate_for_bill year month acc b s = (Ok acc, s))
  \/ (has_payment_in_window year month (payments s) b = false
      /\ generate_for_bill year month acc b s
         = (Ok (acc ++ [generated year month (next_id s) b]),
            mkStore (bills s)
              (payments s ++ [generated year month (next_id s) b])
              (S (next_id s)))).
Proof.
  intros Hb. unfold generate_for_bill, bind, payment_findFirst.
  unfold has_payment_in_window.
  destruct (find (in_duplicate_window year month b) (payments s))
    as [q |] eqn:Efind.
  - left. split; [| reflexivity].
    apply find_some in Efind. apply existsb_exists. eauto.
  - right. split; [now apply find_none_existsb |].
    unfold createPayment, payment_create. cbn [c_billId in_billId].
    destruct (find_In_some (fun b' => Nat.eqb (Bill.id b') (Bill.id b))
                (bills s) b Hb (Nat.eqb_refl _)) as [b' Eb].
    unfold bill_lookup. rewrite Eb. reflexivity.
Qed.

Lemma has_payment_in_window_app (l1 l2 : list Payment.t) (b : Bill.t) :
  has_payment_in_window year month (l1 ++ l2) b
  = has_payment_in_window year month l1 b
    || has_payment_in_window year month l2 b.
Proof. apply existsb_app. Qed.

Lemma has_payment_in_window_other (l : list Payment.t) (b : Bill.t) :
  Forall (fun p => Payment.billId p <> Bill.id b) l ->
  has_payment_in_window year month l b = false.
Proof.
  intros H. unfold has_payment_in_window.
  apply not_true_is_false. intros E.
  apply existsb_exists in E. destruct E as (p & Hp & Hw).
  rewrite Forall_forall in H. apply (H p Hp).
  apply in_duplicate_window_bounds in Hw. tauto.
Qed.

(** The loop, without any assumption on ids: it never throws, appends
    rows and returns them. *)
Lemma generate_loop_appends (bs : list Bill.t) :
  forall (acc : list Payment.t) (s0 : Store) (old : list Payment.t),
    (forall b, In b bs -> In b (bills s0)) ->
    incl old (payments s0) ->
    exists news,
      for_of bs (generate_for_bill year month) acc s0
      = (Ok (acc ++ news),
         mkStore (bills s0) (payments s0 ++ news)
           (next_id s0 + List.length news)%nat)
      /\ Forall
           (fun p =>
              exists b i,
                In b bs
                /\ has_payment_in_window year month old b = false
                /\ p = generated year month i b)
           news.
Proof.
  induction bs as [| b bs IH]; intros acc s0 old Hbs Hold.
  - exists []. cbn. rewrite !app_nil_r, Nat.add_0_r.
    split; [now destruct s0 | constructor].
  - cbn [for_of]. unfold bind at 1.
    destruct (generate_for_bill_cases acc b s0 (Hbs b (or_introl eq_refl)))
      as [[Hhas E] | [Hhas E]]; rewrite E.
    + destruct (IH acc s0 old) as (news & En & Hn);
        [intros; apply Hbs; now right | exact Hold |].
      exists news. split; [exact En |].
      eapply Forall_impl; [| exact Hn].
      intros p (b' & i & Hb' & Hw & Hp). exists b', i.
      split; [now right | auto].
    + destruct (IH (acc ++ [generated year month (next_id s0) b])
                  (mkStore (bills s0)
                     (payments s0 ++ [generated year month (next_id s0) b])
                     (S (next_id s0)))
                  old) as (news & En & Hn).
      { intros; apply Hbs; now right. }
      { cbn. now apply incl_appl. }
      exists (generated year month (next_id s0) b :: news).
      cbn [bills payments next_id] in En. rewrite En.
      split.
      * rewrite <- !app_assoc. cbn [app List.length].
        now rewrite Nat.add_succ_r.
      * constructor.
        -- exists b, (next_id s0). split; [now left |].
           split; [| reflexivity].
           apply not_true_is_false. intros Ht.
           apply existsb_exists in Ht. destruct Ht as (q & Hq & Hw).
           unfold has_payment_in_window in Hhas.
           assert (Hex : existsb (in_duplicate_window year month b)
                           (payments s0) = true)
             by (apply existsb_exists; eauto).
           congruence.
        -- eapply Forall_impl; [| exact Hn].
           intros p (b' & i & Hb' & Hw & Hp). exists b', i.
           split; [now right | auto].
Qed.


(** The loop when the ids of the bills are pairwise different: rows
    created on the way, which belong to earlier bills, never make a later
    bill skipped. *)
Lemma generate_loop_exact (bs : list Bill.t) :
  forall (acc : list Payment.t) (s0 : Store) (old extra : list Payment.t),
    (forall b, In b bs -> In b (bills s0)) ->
    NoDup (map Bill.id bs) ->
    payments s0 = old ++ extra ->
    Forall (fun p => ~ In (Payment.billId p) (map Bill.id bs)) extra ->
    let due :=
      filter (fun b => negb (has_payment_in_window year month old b)) bs in
    for_of bs (generate_for_bill year month) acc s0
    = (Ok (acc ++ generated_rows year month (next_id s0) due),
       mkStore (bills s0)
         (payments s0 ++ generated_rows year month (next_id s0) due)
         (next_id s0 + List.length due)%nat).
Proof.
  induction bs as [| b bs IH]; intros acc s0 old extra Hbs Hnd Hpay Hextra.
  - cbn. rewrite !app_nil_r, Nat.add_0_r. now destruct s0.
  - cbn zeta. cbn [for_of filter]. unfold bind at 1.
    inversion Hnd as [| ? ? Hnotin Hnd']; subst.
    assert (Hsame : has_payment_in_window year month (payments s0) b
                    = has_payment_in_window year month old b).
    { rewrite Hpay, has_payment_in_window_app.
      rewrite (has_payment_in_window_other extra b), orb_false_r;
        [reflexivity |].
      eapply Forall_impl; [| exact Hextra].
      cbn. intros p Hp E. apply Hp. now left. }
    destruct (generate_for_bill_cases acc b s0 (Hbs b (or_introl eq_refl)))
      as [[Hhas E] | [Hhas E]]; rewrite E; rewrite Hsame in Hhas;
      rewrite Hhas; cbn [negb].
    + apply (IH acc s0 old extra); auto.
      * intros; apply Hbs; now right.
      * eapply Forall_impl; [| exact Hextra].
        cbn. intros p Hp Hin. apply Hp. now right.
    + rewrite (IH (acc ++ [generated year month (next_id s0) b])
                 (mkStore (bills s0)
                    (payments s0 ++ [generated year month (next_id s0) b])
                    (S (next_id s0)))
                 old (extra ++ [generated year month (next_id s0) b])).
      * cbn [bills payments next_id]. unfold generated_rows.
        cbn [List.length seq combine map fst snd].
        rewrite <- !app_assoc. cbn [app].
        now rewrite Nat.add_succ_r.
      * intros; apply Hbs; now right.
      * exact Hnd'.
      * cbn. now rewrite Hpay, app_assoc.
      * apply Forall_app. split.
        -- eapply Forall_impl; [| exact Hextra].
           cbn. intros p Hp Hin. apply Hp. now right.
        -- constructor; [exact Hnotin | constructor].
Qed.

Lemma NoDup_map_filter {A B : Type} (f : A -> B) (g : A -> bool)
  (l : list A) :
  NoDup (map f l) -> NoDup (map f (filter g l)).
Proof.
  induction l as [| a l IH]; cbn; intros H; [constructor |].
  inversion H as [| ? ? Hn Hd]; subst.
  destruct (g a); cbn; [constructor |]; auto.
  intros Hin. apply Hn. apply in_map_iff in Hin.
  destruct Hin as (x & Ex & Hx). apply filter_In in Hx.
  apply in_map_iff. exists x. tauto.
Qed.

(** X8: when the ids of the bills are pairwise different,
    [generateMonthlyPayments] creates exactly one payment for each active
    bill that has no payment in the duplicate window, in the order of the
    bills, and nothing for inactive bills or for bills that have one. *)
Theorem generateMonthlyPayments_one_per_due_bill (s : Store) :
  NoDup (map Bill.id (bills s)) ->
  let created :=
    generated_rows year month (next_id s) (due_bills year month s) in
  generateMonthlyPayments year month s
  = (Ok created,
     mkStore (bills s) (payments s ++ created)
       (next_id s + List.length (due_bills year month s))%nat).
Proof.
  intros Hnd. cbv zeta.
  unfold generateMonthlyPayments, bind, bill_findMany.
  rewrite (generate_loop_exact (filter Bill.active (bills s)) [] s
             (payments s) []).
  - reflexivity.
  - intros b Hb. apply filter_In in Hb. tauto.
  - now apply NoDup_map_filter.
  - now rewrite app_nil_r.
  - constructor.
Qed.
End Generated.

Lemma generateMonthlyPayments_one_per_due_bill_witness :
  fst (PaymentService.generateMonthlyPayments 2024 3 Sample.only_rent)
  = Ok [generated 2024 3 0%nat Sample.rent].
Proof.
  rewrite (generateMonthlyPayments_one_per_due_bill 2024 3 Sample.only_rent).
  - reflexivity.
  - cbn. repeat constructor. intros [].
Defined.

(* ===================================================================== *)
(** * Generating, then listing *)
(* ===================================================================== *)

Section GeneratedAndListed.
Import JSDate Prisma PaymentService.

Lemma generated_in_listing_window (year month : Z) (i : Id) (b : Bill.t) :
  1 <= month <= 12 ->
  day_exists year month b ->
  in_listing_window year month (generated year month i b) = true.
Proof.
  intros Hm Hd. apply in_listing_window_bounds. cbn [generated Payment.dueDate].
  unfold day_exists in Hd.
  rewrite (new_Date_next_month year month Hm).
  rewrite (new_Date_day year (month - 1) (Bill.dueDay b)).
  unfold msPerDay. lia.
Qed.

(** X9: when the due day of every active bill is a day of the target
    month, [generateMonthlyPayments] leaves every active bill with a
    payment in the duplicate window, and every payment it created is a row
    of [getPaymentsByMonth] for that month. *)
Theorem generateMonthlyPayments_covers (year month : Z) (s : Store) :
  1 <= month <= 12 ->
  (forall b, In b (bills s) -> Bill.active b = true ->
             day_exists year month b) ->
  exists created s1 rows,
    generateMonthlyPayments year month s = (Ok created, s1)
    /\ (forall b, In b (bills s1) -> Bill.active b = true ->
                  covered year month s1 b)
    /\ getPaymentsByMonth year month s1 = (Ok rows, s1)
    /\ incl created (map pwb_payment rows).
Proof.
  intros Hm Hdays.
  destruct (first_pass year month Hm (filter Bill.active (bills s)) [] s)
    as (created & s1 & E1 & Hbills & _ & Hcov).
  { intros b Hb. apply filter_In in Hb. destruct Hb. auto. }
  destruct (generate_loop_appends year month
              (filter Bill.active (bills s)) [] s (payments s))
    as (news & En & Hn).
  { intros b Hb. apply filter_In in Hb. tauto. }
  { apply incl_refl. }
  rewrite E1 in En. injection En as -> ->.
  destruct (getPaymentsByMonth_rows year month
              (mkStore (bills s) (payments s ++ news)
                 (next_id s + List.length news)%nat))
    as (rows & Erows & Hrows).
  eexists news, _, rows.
  split; [exact E1 |]. split; [| split; [exact Erows |]].
  - intros b Hb Ha. apply Hcov. apply filter_In. cbn in Hb. tauto.
  - intros p Hp. apply Hrows. cbn [payments].
    split; [apply in_or_app; now right |].
    rewrite Forall_forall in Hn.
    destruct (Hn p Hp) as (b & i & Hb & _ & ->).
    apply filter_In in Hb. destruct Hb as [Hb Ha].
    apply generated_in_listing_window; auto.
Qed.

Lemma generateMonthlyPayments_covers_witness :
  exists created s1 rows,
    generateMonthlyPayments 2024 3 Sample.only_rent = (Ok created, s1)
    /\ getPaymentsByMonth 2024 3 s1 = (Ok rows, s1)
    /\ incl created (map pwb_payment rows).
Proof.
  destruct (generateMonthlyPayments_covers 2024 3 Sample.only_rent)
    as (created & s1 & rows & E & _ & Er & Hi).
  - lia.
  - intros b [<- | []] _. unfold day_exists. cbn. lia.
  - exists created, s1, rows. auto.
Defined.
End GeneratedAndListed.

(* ===================================================================== *)
(** * Month numbers outside 1..12 *)
(* ===================================================================== *)

Section MonthCarry.
Import JSDate Prisma PaymentService.

Lemma find_pointwise {A : Type} (f g : A -> bool) (l : list A) :
  (forall x, f x = g x) -> find f l = find g l.
Proof.
  intros H. induction l as [| a l IH]; [reflexivity |].
  cbn. now rewrite H, IH.
Qed.

Lemma for_of_pointwise {A B : Type} (f g : B -> A -> db B) (xs : list A) :
  (forall acc x s, f acc x s = g acc x s) ->
  forall acc s, for_of xs f acc s = for_of xs g acc s.
Proof.
  intros H. induction xs as [| x xs IH]; intros acc s; [reflexivity |].
  cbn. unfold bind. rewrite H.
  destruct (g acc x s) as [[acc' | e] s']; [apply IH | reflexivity].
Qed.

Variables year month : Z.
Hypothesis not_before_year_0 : year <> -1.
Hypothesis not_year_99 : year <> 99.

Lemma full_year_next : full_year (year + 1) = full_year year + 1.
Proof.
  unfold full_year.
  destruct (0 <=? year) eqn:E1, (year <=? 99) eqn:E2,
    (0 <=? year + 1) eqn:E3, (year + 1 <=? 99) eqn:E4; cbn [andb];
    rewrite ?Z.leb_le, ?Z.leb_gt in *; lia.
Qed.

Lemma new_Date6_carry (m d h mi sec : Z) :
  new_Date6 year (m + 12) d h mi sec = new_Date6 (year + 1) m d h mi sec.
Proof.
  unfold new_Date6, MakeDay. cbv zeta. rewrite full_year_next.
  replace (m + 12) with (m + 1 * 12) by lia.
  rewrite Z.div_add, Z.mod_add by lia.
  replace (full_year year + (m / 12 + 1)) with (full_year year + 1 + m / 12)
    by lia.
  reflexivity.
Qed.

Lemma new_Date_carry (m d : Z) :
  new_Date year (m + 12) d = new_Date (year + 1) m d.
Proof. apply new_Date6_carry. Qed.

Lemma in_duplicate_window_carry (b : Bill.t) (p : Payment.t) :
  in_duplicate_window year (month + 12) b p
  = in_duplicate_window (year + 1) month b p.
Proof.
  unfold in_duplicate_window.
  replace (month + 12 - 1) with (month - 1 + 12) by lia.
  now rewrite !new_Date_carry.
Qed.

Lemma in_listing_window_carry (p : Payment.t) :
  in_listing_window year (month + 12) p = in_listing_window (year + 1) month p.
Proof.
  unfold in_listing_window.
  replace (month + 12 - 1) with (month - 1 + 12) by lia.
  now rewrite new_Date_carry, new_Date6_carry.
Qed.

(** X10: a month number that is 12 too high means the same month of the
    next year, to the generation as to the listing and the sums: month 13
    of a year is January of the year after, and month 0 is December of the
    year before.  (The years -1 and 99 are excepted: the [Date]
    constructor reads the years 0..99 as 1900..1999.) *)
Theorem month_number_carries (s : Store) :
  generateMonthlyPayments year (month + 12) s
  = generateMonthlyPayments (year + 1) month s
  /\ getPaymentsByMonth year (month + 12) s
     = getPaymentsByMonth (year + 1) month s
  /\ getPaymentsSummary year (month + 12) s
     = getPaymentsSummary (year + 1) month s.
Proof.
  assert (Hlist : getPaymentsByMonth year (month + 12) s
                  = getPaymentsByMonth (year + 1) month s).
  { unfold getPaymentsByMonth, payment_findMany_asc.
    now rewrite (filter_ext _ _ in_listing_window_carry). }
  split; [| split; [exact Hlist |]].
  - unfold generateMonthlyPayments, bind, bill_findMany.
    apply for_of_pointwise. intros acc b s'.
    unfold generate_for_bill, bind, payment_findFirst.
    rewrite (find_pointwise _ _ (payments s')
               (in_duplicate_window_carry b)).
    replace (month + 12 - 1) with (month - 1 + 12) by lia.
    now rewrite new_Date_carry.
  - unfold getPaymentsSummary, bind. now rewrite Hlist.
Qed.
End MonthCarry.

Lemma month_number_carries_witness :
  PaymentService.generateMonthlyPayments 2024 13 Sample.only_rent
  = PaymentService.generateMonthlyPayments 2025 1 Sample.only_rent.
Proof.
  apply (month_number_carries 2024 1); lia.
Defined.

(* ===================================================================== *)
(** * Sweeping more than once *)
(* ===================================================================== *)

Section Sweeps.
Import JSDate Prisma PaymentService Commands.

(** The row update of a sweep. *)
Let sweep_one (now : Date) (p : Payment.t) : Payment.t :=
  if is_stale now p
  then apply_update (mkUpdateData None (Some OVERDUE) None None) p
  else p.

Lemma updateOverduePayments_rows (now : Date) (s : Store) :
  updateOverduePayments now s
  = (Ok (List.length (filter (is_stale now) (payments s))),
     mkStore (bills s) (map (sweep_one now) (payments s)) (next_id s)).
Proof. reflexivity. Qed.

Lemma sweep_one_not_stale (now now' : Date) (p : Payment.t) :
  is_stale now (sweep_one now' p)
  = is_stale now p && negb (is_stale now' p).
Proof.
  unfold sweep_one. destruct (is_stale now' p) eqn:E.
  - rewrite andb_false_r. reflexivity.
  - now rewrite andb_true_r.
Qed.

Lemma sweep_one_twice (now1 now2 : Date) (p : Payment.t) :
  now1 <= now2 ->
  sweep_one now2 (sweep_one now1 p) = sweep_one now2 p.
Proof.
  intros Hle. destruct (is_stale now1 p) eqn:E1.
  - assert (E2 : is_stale now2 p = true).
    { apply is_stale_iff in E1. destruct E1 as [Hs Hd].
      apply is_stale_iff. split; [assumption | lia]. }
    unfold sweep_one. rewrite E1, E2. reflexivity.
  - assert (E : sweep_one now1 p = p)
      by (unfold sweep_one; now rewrite E1).
    now rewrite E.
Qed.

Lemma stale_counts_add (now1 now2 : Date) (l : list Payment.t) :
  now1 <= now2 ->
  (List.length (filter (is_stale now1) l)
   + List.length (filter (is_stale now2) (map (sweep_one now1) l)))%nat
  = List.length (filter (is_stale now2) l).
Proof.
  intros Hle. induction l as [| p l IH]; [reflexivity |].
  cbn [map filter]. rewrite sweep_one_not_stale.
  destruct (is_stale now1 p) eqn:E1.
  - apply is_stale_iff in E1. destruct E1 as [Hs Hd].
    assert (E2 : is_stale now2 p = true)
      by (apply is_stale_iff; split; [assumption | lia]).
    rewrite E2. cbn. now rewrite IH.
  - rewrite andb_true_r. destruct (is_stale now2 p); cbn.
    + now rewrite Nat.add_succ_r, IH.
    + exact IH.
Qed.

(** X11: two sweeps in a row, the second at the same or a later time, leave
    the store that one sweep at the later time leaves, and their counts
    add up to its count; in particular a sweep repeated at the same time
    returns 0 and changes nothing. *)
Theorem updateOverduePayments_twice (now1 now2 : Date) (s : Store) :
  now1 <= now2 ->
  exists c1 s1 c2 s2 c,
    updateOverduePayments now1 s = (Ok c1, s1)
    /\ updateOverduePayments now2 s1 = (Ok c2, s2)
    /\ updateOverduePayments now2 s = (Ok c, s2)
    /\ (c1 + c2)%nat = c
    /\ (now1 = now2 -> c2 = 0%nat /\ s2 = s1).
Proof.
  intros Hle. rewrite !updateOverduePayments_rows.
  do 5 eexists. split; [reflexivity |].
  rewrite updateOverduePayments_rows. cbn [bills payments next_id].
  split; [reflexivity |].
  rewrite map_map.
  rewrite (map_ext _ (sweep_one now2)
             (fun p => sweep_one_twice now1 now2 p Hle)).
  split; [reflexivity |].
  split; [now apply stale_counts_add |].
  intros <-.
  pose proof (stale_counts_add now1 now1 (payments s) (Z.le_refl _)) as H.
  split; [lia | reflexivity].
Qed.

Lemma updateOverduePayments_twice_witness :
  exists c1 s1 c2 s2,
    updateOverduePayments (new_Date 2024 3 1) Sample.rent_unpaid = (Ok c1, s1)
    /\ updateOverduePayments (new_Date 2024 5 1) s1 = (Ok c2, s2)
    /\ updateOverduePayments (new_Date 2024 5 1) Sample.rent_unpaid
       = (Ok (c1 + c2)%nat, s2).
Proof.
  destruct (updateOverduePayments_twice (new_Date 2024 3 1)
              (new_Date 2024 5 1) Sample.rent_unpaid)
    as (c1 & s1 & c2 & s2 & c & E1 & E2 & E & Hc & _).
  - vm_compute. discriminate.
  - exists c1, s1, c2, s2. rewrite Hc. auto.
Defined.

Lemma sweep_one_settled (now : Date) (p : Payment.t) :
  Payment.status (sweep_one now p) = PENDING ->
  now <= Payment.dueDate (sweep_one now p).
Proof.
  unfold sweep_one. destruct (is_stale now p) eqn:E.
  - cbn. discriminate.
  - intros Hs.
    destruct (Z_le_gt_dec now (Payment.dueDate p)) as [H | H]; [exact H |].
    assert (is_stale now p = true)
      by (apply is_stale_iff; split; [assumption | lia]).
    congruence.
Qed.

(** X12: the monthly summary command sweeps first: in what it displays,
    every payment that is still PENDING is due at the time of the sweep or
    later, and the sums and the rows are those of the swept store, which
    the command leaves behind. *)
Theorem showMonthlySummary_after_sweep (now : Date) (year month : Z)
  (s : Store) :
  exists count s' summary rows,
    updateOverduePayments now s = (Ok count, s')
    /\ showMonthlySummary now year month s = (Ok (summary, rows), s')
    /\ getPaymentsSummary year month s' = (Ok summary, s')
    /\ getPaymentsByMonth year month s' = (Ok rows, s')
    /\ Forall
         (fun r =>
            Payment.status (pwb_payment r) = PENDING ->
            now <= Payment.dueDate (pwb_payment r))
         rows
    /\ Forall
         (fun p => Payment.status p = PENDING -> now <= Payment.dueDate p)
         (payments s').
Proof.
  unfold showMonthlySummary, bind, ret.
  rewrite updateOverduePayments_rows.
  set (s' := mkStore (bills s) (map (sweep_one now) (payments s)) (next_id s)).
  rewrite (getPaymentsSummary_rows year month s').
  destruct (getPaymentsByMonth_rows year month s') as (rows & Er & Hrows).
  rewrite Er.
  assert (Hall : Forall
                   (fun p => Payment.status p = PENDING ->
                             now <= Payment.dueDate p) (payments s')).
  { subst s'. cbn. apply Forall_map. apply Forall_forall.
    intros p _. apply sweep_one_settled. }
  do 4 eexists. split; [reflexivity |]. split; [reflexivity |].
  split; [reflexivity |]. split; [exact Er |]. split; [| exact Hall].
  apply Forall_forall. intros r Hr.
  rewrite Forall_forall in Hall. apply Hall.
  apply Hrows. apply in_map_iff. eauto.
Qed.
End Sweeps.

(* ===================================================================== *)
(** * What no call does to a payment *)
(* ===================================================================== *)

Section Kept.
Import JSDate Prisma PaymentService History.

Variable R : Payment.t -> Payment.t -> Prop.
Hypothesis R_refl : forall p, R p p.
Hypothesis R_trans : forall p q r, R p q -> R q r -> R p r.

Lemma Forall2_same (l : list Payment.t) : Forall2 R l l.
Proof. induction l; constructor; auto. Qed.

Lemma Forall2_map_image (g : Payment.t -> Payment.t) (l : list Payment.t) :
  (forall p, R p (g p)) -> Forall2 R l (map g l).
Proof. intros H. induction l; constructor; auto. Qed.

Lemma Forall2_chain (l1 l2 l3 : list Payment.t) :
  Forall2 R l1 l2 -> Forall2 R l2 l3 -> Forall2 R l1 l3.
Proof.
  intros H. revert l3. induction H as [| x y l1 l2 Hxy _ IH]; intros l3 H3.
  - inversion H3. constructor.
  - inversion H3; subst. constructor; eauto.
Qed.

Lemma kept_same (s : Store) : kept R s s.
Proof.
  exists (payments s), []. rewrite app_nil_r.
  split; [reflexivity | apply Forall2_same].
Qed.

Lemma kept_appended (s : Store) (bs : list Bill.t) (news : list Payment.t)
  (n : Id) :
  kept R s (mkStore bs (payments s ++ news) n).
Proof.
  exists (payments s), news. split; [reflexivity | apply Forall2_same].
Qed.

Lemma kept_mapped (s : Store) (bs : list Bill.t)
  (g : Payment.t -> Payment.t) (n : Id) :
  (forall p, R p (g p)) ->
  kept R s (mkStore bs (map g (payments s)) n).
Proof.
  intros H. exists (map g (payments s)), []. rewrite app_nil_r.
  split; [reflexivity | now apply Forall2_map_image].
Qed.

Lemma kept_chain (s1 s2 s3 : Store) :
  kept R s1 s2 -> kept R s2 s3 -> kept R s1 s3.
Proof.
  intros (l2 & e2 & E2 & H2) (l3 & e3 & E3 & H3).
  rewrite E2 in H3.
  apply Forall2_app_inv_l in H3.
  destruct H3 as (l3a & l3b & Ha & Hb & ->).
  exists l3a, (l3b ++ e3). rewrite E3, <- app_assoc.
  split; [reflexivity |]. eapply Forall2_chain; eassumption.
Qed.

(** A call whose row updates respect [R] keeps the payments up to [R]. *)
Lemma run_kept (c : call) (s : Store) :
  (forall id input p,
      c = UpdatePayment id input -> R p (apply_update input p)) ->
  (forall d p, R p (apply_update (mkUpdateData None (Some PAID) (Some d) None) p)) ->
  (forall now p,
      is_stale now p = true ->
      R p (apply_update (mkUpdateData None (Some OVERDUE) None None) p)) ->
  kept R s (run c s).
Proof.
  intros Hupd Hpaid Hsweep. destruct c; cbn [run].
  - unfold createPayment, payment_create.
    destruct (bill_lookup s _); cbn; [apply kept_appended | apply kept_same].
  - destruct (generate_loop_appends year month
                (filter Bill.active (bills s)) [] s (payments s))
      as (news & En & _).
    { intros b Hb. apply filter_In in Hb. tauto. }
    { apply incl_refl. }
    unfold generateMonthlyPayments, bind, bill_findMany.
    rewrite En. apply kept_appended.
  - unfold updatePayment, payment_update.
    destruct (find _ (payments s)); cbn; [| apply kept_same].
    apply kept_mapped. intros p.
    destruct (has_id id p); [now apply (Hupd id input) | apply R_refl].
  - unfold markAsPaid, updatePayment, payment_update.
    destruct (find _ (payments s)); cbn; [| apply kept_same].
    apply kept_mapped. intros p.
    destruct (has_id id p); [apply Hpaid | apply R_refl].
  - unfold updateOverduePayments, payment_updateMany. cbn.
    apply kept_mapped. intros p.
    destruct (is_stale now p) eqn:E; [now apply (Hsweep now) | apply R_refl].
Qed.
End Kept.

Section NeverDone.
Import JSDate Prisma PaymentService History.


Lemma status_rank_after_update (input : UpdatePaymentInput) (p : Payment.t) :
  Payment.status (apply_update input p)
  = match u_status input with
    | Some st => st
    | None => Payment.status p
    end.
Proof. reflexivity. Qed.

(** X14: along every sequence of such calls in which [updatePayment] is
    not given a [status], no payment moves backwards in the order PENDING,
    OVERDUE, PAID: a PAID payment stays PAID, and an OVERDUE payment never
    returns to PENDING. *)
Theorem status_never_moves_backwards (cs : list call) (s : Store) :
  Forall leaves_status cs ->
  kept not_backwards s (run_all cs s).
Proof.
  assert (Hrefl : forall p, not_backwards p p)
    by (intros p; unfold not_backwards; lia).
  assert (Htrans : forall p q r,
             not_backwards p q -> not_backwards q r -> not_backwards p r)
    by (unfold not_backwards; intros; lia).
  unfold run_all. revert s.
  induction cs as [| c cs IH]; intros s Hcs; [now apply kept_same |].
  inversion Hcs as [| ? ? Hc Hrest]; subst.
  cbn [fold_left].
  eapply kept_chain; [exact Htrans | | now apply IH].
  apply run_kept; auto.
  - intros id input p ->. cbn in Hc.
    unfold not_backwards. rewrite status_rank_after_update, Hc. lia.
  - intros d p. unfold not_backwards. rewrite status_rank_after_update.
    cbn. destruct (Payment.status p); cbn; lia.
  - intros now p Hst. apply is_stale_iff in Hst. destruct Hst as [Hs _].
    unfold not_backwards. rewrite status_rank_after_update, Hs. cbn. lia.
Qed.

Lemma status_never_moves_backwards_witness :
  kept not_backwards Sample.rent_unpaid
    (run_all
       [MarkAsPaid (new_Date 2024 0 5) 0%nat None;
        UpdateOverduePayments (new_Date 2024 5 1);
        UpdatePayment 0%nat
          (mkUpdateData (Some 1600%float) None None None)]
       Sample.rent_unpaid).
Proof.
  apply status_never_moves_backwards.
  repeat constructor.
Defined.
End NeverDone.

(* ===================================================================== *)
(** * One payment: marking, deleting, creating and reading back *)
(* ===================================================================== *)

Section OnePayment.
Import JSDate Prisma Queries PaymentService PaymentReads.

Lemma find_has_id_none (i : Id) (l : list Payment.t) :
  (forall p, In p l -> Payment.id p <> i) -> find (has_id i) l = None.
Proof.
  intros H. apply find_none_iff. intros p Hp.
  unfold has_id. apply Nat.eqb_neq. auto.
Qed.

Lemma unique_by_id (l : list Payment.t) (p q : Payment.t) :
  NoDup (map Payment.id l) ->
  In p l -> In q l -> Payment.id p = Payment.id q -> p = q.
Proof.
  induction l as [| a l IH]; cbn; intros Hnd Hp Hq E; [destruct Hp |].
  inversion Hnd as [| ? ? Hn Hd]; subst.
  destruct Hp as [-> | Hp], Hq as [-> | Hq]; auto.
  - exfalso. apply Hn. rewrite E. now apply in_map.
  - exfalso. apply Hn. rewrite <- E. now apply in_map.
Qed.

Lemma find_has_id_unique (l : list Payment.t) (p : Payment.t) :
  NoDup (map Payment.id l) -> In p l ->
  find (has_id (Payment.id p)) l = Some p.
Proof.
  intros Hnd Hp.
  destruct (find_In_some (has_id (Payment.id p)) l p Hp (Nat.eqb_refl _))
    as [q Hq].
  rewrite Hq. f_equal. apply find_some in Hq. destruct Hq as [Hq E].
  apply Nat.eqb_eq in E. eapply unique_by_id; eauto.
Qed.

(** X15: [markAsPaid] on an id that no payment has throws the not-found
    error and writes nothing.  On the id of a stored payment it returns
    that payment with status PAID and the given paidDate (the current time
    when none is given) and everything else as it was, stores it in place,
    and leaves every other payment and every bill untouched. *)
Theorem markAsPaid_marks_one (now : Date) (paidDate : option Date)
  (s : Store) :
  let d := match paidDate with Some d => d | None => now end in
  let paid_version p :=
    Payment.mk (Payment.id p) (Payment.billId p) (Payment.amount p) PAID
      (Payment.dueDate p) (Some d) (Payment.notes p) in
  (forall id,
      (forall p, In p (payments s) -> Payment.id p <> id) ->
      markAsPaid now id paidDate s = (Err RecordNotFound, s))
  /\ (forall p,
        NoDup (map Payment.id (payments s)) ->
        In p (payments s) ->
        exists s',
          markAsPaid now (Payment.id p) paidDate s = (Ok (paid_version p), s')
          /\ bills s' = bills s
          /\ Forall2
               (fun q q' => (q = p -> q' = paid_version p)
                            /\ (q <> p -> q' = q))
               (payments s) (payments s')).
Proof.
  cbv zeta. split.
  - intros id Hnone. unfold markAsPaid, updatePayment, payment_update.
    now rewrite find_has_id_none.
  - intros p Hnd Hp. unfold markAsPaid, updatePayment, payment_update.
    rewrite (find_has_id_unique _ _ Hnd Hp).
    eexists. split; [reflexivity |]. split; [reflexivity |].
    cbn [payments].
    assert (Hall : forall q, In q (payments s) ->
                     (q = p -> has_id (Payment.id p) q = true)
                     /\ (q <> p -> has_id (Payment.id p) q = false)).
    { intros q Hq. split.
      - intros ->. apply Nat.eqb_refl.
      - intros Hne. apply Nat.eqb_neq. intros E. apply Hne.
        eapply unique_by_id; eauto. }
    clear Hnd Hp. induction (payments s) as [| q l IH]; [constructor |].
    cbn [map]. constructor.
    + destruct (Hall q (or_introl eq_refl)) as [H1 H2]. split.
      * intros E. rewrite (H1 E). now subst q.
      * intros Hne. now rewrite (H2 Hne).
    + apply IH. intros q' Hq'. apply Hall. now right.
Qed.

Lemma markAsPaid_marks_one_witness :
  exists s',
    markAsPaid (new_Date 2024 0 5) 0%nat None Sample.rent_unpaid
    = (Ok (Payment.mk 0%nat 0%nat 1500%float PAID (new_Date 2024 0 1)
             (Some (new_Date 2024 0 5)) None), s')
    /\ bills s' = bills Sample.rent_unpaid.
Proof.
  destruct (markAsPaid_marks_one (new_Date 2024 0 5) None Sample.rent_unpaid)
    as [_ H].
  destruct (H Sample.january_payment) as (s' & E & Hb & _).
  - cbn. repeat constructor. intros [].
  - now left.
  - exists s'. exact (conj E Hb).
Defined.

(** X16: [deletePayment] on an id that no payment has throws the
    not-found error and writes nothing.  On the id of a stored payment it
    returns that payment and removes it and nothing else; afterwards
    [getPaymentById] finds nothing under the id and a second
    [deletePayment] throws the not-found error. *)
Theorem deletePayment_removes_one (s : Store) :
  (forall id,
      (forall p, In p (payments s) -> Payment.id p <> id) ->
      deletePayment id s = (Err RecordNotFound, s))
  /\ (forall p,
        NoDup (map Payment.id (payments s)) ->
        In p (payments s) ->
        exists s',
          deletePayment (Payment.id p) s = (Ok p, s')
          /\ bills s' = bills s
          /\ (forall q, In q (payments s') <-> In q (payments s) /\ q <> p)
          /\ getPaymentById (Payment.id p) s' = (Ok None, s')
          /\ deletePayment (Payment.id p) s' = (Err RecordNotFound, s')).
Proof.
  split.
  - intros id Hnone. unfold deletePayment, payment_delete.
    now rewrite find_has_id_none.
  - intros p Hnd Hp. unfold deletePayment, payment_delete.
    rewrite (find_has_id_unique _ _ Hnd Hp).
    eexists. split; [reflexivity |]. split; [reflexivity |].
    cbn [payments].
    assert (Hgone : find (has_id (Payment.id p))
                      (filter (fun q => negb (has_id (Payment.id p) q))
                         (payments s)) = None).
    { apply find_none_iff. intros q Hq. apply filter_In in Hq.
      destruct Hq as [_ Hq]. now apply negb_true_iff in Hq. }
    split; [| split].
    + intros q. rewrite filter_In, negb_true_iff. unfold has_id.
      rewrite Nat.eqb_neq. split.
      * intros [Hq Hne]. split; [exact Hq | congruence].
      * intros [Hq Hne]. split; [exact Hq |].
        intros E. apply Hne. eapply unique_by_id; eauto.
    + unfold getPaymentById, payment_findUnique. cbn [payments].
      now rewrite Hgone.
    + cbn [payments]. now rewrite Hgone.
Qed.

Lemma deletePayment_removes_one_witness :
  exists s',
    deletePayment 0%nat Sample.rent_unpaid = (Ok Sample.january_payment, s')
    /\ getPaymentById 0%nat s' = (Ok None, s').
Proof.
  destruct (deletePayment_removes_one Sample.rent_unpaid) as [_ H].
  destruct (H Sample.january_payment) as (s' & E & _ & _ & Hg & _).
  - cbn. repeat constructor. intros [].
  - now left.
  - exists s'. exact (conj E Hg).
Defined.

(** X17: [createPayment] for a bill that is not stored throws the
    foreign-key error and writes nothing.  For a stored bill, and when
    every stored payment id has been drawn before, it returns a new PENDING
    payment without paidDate; [getPaymentById] then reads that payment
    back with its bill, and deleting it restores the payments there
    were. *)
Theorem createPayment_round_trip (input : CreatePaymentInput) (s : Store) :
  ((forall b, In b (bills s) -> Bill.id b <> in_billId input) ->
   createPayment input s = (Err ForeignKeyViolation, s))
  /\ (forall b,
        In b (bills s) -> Bill.id b = in_billId input ->
        Forall (fun p => (Payment.id p < next_id s)%nat) (payments s) ->
        exists p s1 b',
          createPayment input s = (Ok p, s1)
          /\ p = Payment.mk (next_id s) (in_billId input) (in_amount input)
                   PENDING (in_dueDate input) None (in_notes input)
          /\ payments s1 = payments s ++ [p]
          /\ getPaymentById (Payment.id p) s1
             = (Ok (Some (mkPaymentWithBill p (Some b'))), s1)
          /\ Bill.id b' = in_billId input
          /\ payments (snd (deletePayment (Payment.id p) s1)) = payments s).
Proof.
  unfold createPayment, payment_create. cbn [c_billId]. split.
  - intros Hnone. unfold bill_lookup.
    replace (find _ (bills s)) with (@None Bill.t); [reflexivity |].
    symmetry. apply find_none_iff. intros b Hb.
    apply Nat.eqb_neq. auto.
  - intros b Hb Eb Hdrawn.
    destruct (find_In_some (fun b' => Nat.eqb (Bill.id b') (in_billId input))
                (bills s) b Hb) as [b' Eb'];
      [now apply Nat.eqb_eq |].
    unfold bill_lookup. rewrite Eb'.
    assert (Hold : forall q, In q (payments s) ->
                     has_id (next_id s) q = false).
    { intros q Hq. rewrite Forall_forall in Hdrawn.
      specialize (Hdrawn q Hq). apply Nat.eqb_neq. lia. }
    set (row := Payment.mk (next_id s) (in_billId input) (in_amount input)
                  PENDING (in_dueDate input) None (in_notes input)).
    set (s1 := mkStore (bills s) (payments s ++ [row]) (S (next_id s))).
    exists row, s1, b'.
    split; [reflexivity |]. split; [reflexivity |].
    split; [reflexivity |].
    change (Payment.id row) with (next_id s).
    assert (Hfind : find (has_id (next_id s)) (payments s1) = Some row).
    { subst s1. cbn [payments].
      induction (payments s) as [| q l IH]; cbn.
      - unfold has_id. cbn. now rewrite Nat.eqb_refl.
      - rewrite (Hold q (or_introl eq_refl)). apply IH.
        + now inversion Hdrawn.
        + intros q' Hq'. apply Hold. now right. }
    split; [| split].
    + unfold getPaymentById, payment_findUnique.
      rewrite Hfind. cbn [option_map]. unfold include_bill, bill_lookup.
      subst s1 row. cbn [Payment.billId bills]. now rewrite Eb'.
    + apply find_some in Eb'. destruct Eb' as [_ E]. now apply Nat.eqb_eq.
    + unfold deletePayment, payment_delete.
      rewrite Hfind. cbn [snd payments]. subst s1. cbn [payments].
      rewrite filter_app. cbn [filter].
      replace (has_id (next_id s) row) with true
        by (unfold has_id; subst row; cbn; now rewrite Nat.eqb_refl).
      cbn [negb]. rewrite app_nil_r.
      clear Hfind. induction (payments s) as [| q l IH]; [reflexivity |].
      cbn [filter]. rewrite (Hold q (or_introl eq_refl)). cbn [negb].
      f_equal. apply IH.
      * now inversion Hdrawn.
      * intros q' Hq'. apply Hold. now right.
Qed.

Lemma createPayment_round_trip_witness :
  exists p s1,
    createPayment
      (mkCreatePaymentInput 0%nat 1500%float (new_Date 2024 3 5) None)
      Sample.only_rent = (Ok p, s1)
    /\ payments (snd (deletePayment (Payment.id p) s1))
       = payments Sample.only_rent.
Proof.
  destruct (createPayment_round_trip
              (mkCreatePaymentInput 0%nat 1500%float (new_Date 2024 3 5) None)
              Sample.only_rent) as [_ H].
  destruct (H Sample.rent) as (p & s1 & b' & E & _ & _ & _ & _ & Hd).
  - now left.
  - reflexivity.
  - constructor.
  - exists p, s1. exact (conj E Hd).
Defined.
End OnePayment.

(* ===================================================================== *)
(** * The bill service *)
(* ===================================================================== *)

Section Bills.
Import JSDate Prisma Queries PaymentService BillService.

Lemma find_bill_none (i : Id) (l : list Bill.t) :
  (forall b, In b l -> Bill.id b <> i) -> find (bill_has_id i) l = None.
Proof.
  intros H. apply find_none_iff. intros b Hb.
  unfold bill_has_id. apply Nat.eqb_neq. auto.
Qed.

Lemma bill_unique_by_id (l : list Bill.t) (a b : Bill.t) :
  NoDup (map Bill.id l) ->
  In a l -> In b l -> Bill.id a = Bill.id b -> a = b.
Proof.
  induction l as [| c l IH]; cbn; intros Hnd Ha Hb E; [destruct Ha |].
  inversion Hnd as [| ? ? Hn Hd]; subst.
  destruct Ha as [-> | Ha], Hb as [-> | Hb]; auto.
  - exfalso. apply Hn. rewrite E. now apply in_map.
  - exfalso. apply Hn. rewrite <- E. now apply in_map.
Qed.

Lemma find_bill_unique (l : list Bill.t) (b : Bill.t) :
  NoDup (map Bill.id l) -> In b l ->
  find (bill_has_id (Bill.id b)) l = Some b.
Proof.
  intros Hnd Hb.
  destruct (find_In_some (bill_has_id (Bill.id b)) l b Hb (Nat.eqb_refl _))
    as [c Hc].
  rewrite Hc. f_equal. apply find_some in Hc. destruct Hc as [Hc E].
  apply Nat.eqb_eq in E. eapply bill_unique_by_id; eauto.
Qed.

(** X18: [deleteBill] on an id that no bill has throws the not-found error
    and writes nothing.  On the id of a stored bill it removes the bill
    and, with it, every payment of the bill and no other payment: no
    payment is left that refers to the id, and every payment of another
    bill stays. *)
Theorem deleteBill_cascades (id : Id) (s : Store) :
  ((forall b, In b (bills s) -> Bill.id b <> id) ->
   deleteBill id s = (Err RecordNotFound, s))
  /\ (forall b,
        In b (bills s) -> Bill.id b = id ->
        exists b' s',
          deleteBill id s = (Ok b', s')
          /\ Bill.id b' = id
          /\ (forall q, In q (bills s') <-> In q (bills s) /\ Bill.id q <> id)
          /\ (forall p, In p (payments s')
                        <-> In p (payments s) /\ Payment.billId p <> id)
          /\ deleteBill id s' = (Err RecordNotFound, s')).
Proof.
  unfold deleteBill, bill_delete. split.
  - intros Hnone. now rewrite find_bill_none.
  - intros b Hb Eb.
    destruct (find_In_some (bill_has_id id) (bills s) b Hb) as [b' Eb'];
      [now apply Nat.eqb_eq |].
    rewrite Eb'. do 2 eexists. split; [reflexivity |].
    split; [apply find_some in Eb'; now apply Nat.eqb_eq |].
    cbn [bills payments].
    assert (Hbills : forall q,
               In q (filter (fun q => negb (bill_has_id id q)) (bills s))
               <-> In q (bills s) /\ Bill.id q <> id).
    { intros q. rewrite filter_In, negb_true_iff. unfold bill_has_id.
      now rewrite Nat.eqb_neq. }
    split; [exact Hbills |]. split.
    + intros p. rewrite filter_In, negb_true_iff.
      now rewrite Nat.eqb_neq.
    + rewrite find_bill_none; [reflexivity |].
      intros q Hq. now apply Hbills in Hq.
Qed.

Lemma deleteBill_cascades_witness :
  exists b' s',
    deleteBill 0%nat Sample.rent_unpaid = (Ok b', s')
    /\ forall p, In p (payments s')
                 <-> In p (payments Sample.rent_unpaid)
                     /\ Payment.billId p <> 0%nat.
Proof.
  destruct (deleteBill_cascades 0%nat Sample.rent_unpaid) as [_ H].
  destruct (H Sample.rent (or_introl eq_refl) eq_refl)
    as (b' & s' & E & _ & _ & Hp & _).
  exists b', s'. exact (conj E Hp).
Defined.

Lemma apply_bill_update_active (a : bool) (b : Bill.t) :
  apply_bill_update (mkBillUpdateData None None None None None (Some a)) b
  = Bill.mk (Bill.id b) (Bill.name b) (Bill.type b) (Bill.amount b)
      (Bill.dueDay b) (Bill.description b) a.
Proof. now destruct b as [i n t am d [de |] ac]. Qed.

(** X19: [toggleBillStatus] on an id that no bill has throws
    [Error('Bill not found')] and writes nothing.  On the id of a stored
    bill (ids being unique) it returns the bill with [active] negated and
    nothing else changed, touches no other bill and no payment, and a
    second call restores the store. *)
Theorem toggleBillStatus_flips (s : Store) :
  (forall id,
      (forall b, In b (bills s) -> Bill.id b <> id) ->
      toggleBillStatus id s = (Raised (ErrorThrown "Bill not found"), s))
  /\ (forall b,
        NoDup (map Bill.id (bills s)) ->
        In b (bills s) ->
        let flipped :=
          Bill.mk (Bill.id b) (Bill.name b) (Bill.type b) (Bill.amount b)
            (Bill.dueDay b) (Bill.description b) (negb (Bill.active b)) in
        exists s',
          toggleBillStatus (Bill.id b) s = (Returned flipped, s')
          /\ payments s' = payments s
          /\ Forall2
               (fun q q' => (q = b -> q' = flipped) /\ (q <> b -> q' = q))
               (bills s) (bills s')
          /\ snd (toggleBillStatus (Bill.id b) s') = s).
Proof.
  split.
  - intros id Hnone.
    unfold toggleBillStatus, getBillById, bill_findUnique.
    now rewrite find_bill_none.
  - intros b Hnd Hb flipped.
    assert (Hstep : forall (l : list Bill.t) (a : Bill.t) (n : Id)
                      (ps : list Payment.t),
               NoDup (map Bill.id l) -> In a l ->
               toggleBillStatus (Bill.id a) (mkStore l ps n)
               = (Returned
                    (Bill.mk (Bill.id a) (Bill.name a) (Bill.type a)
                       (Bill.amount a) (Bill.dueDay a) (Bill.description a)
                       (negb (Bill.active a))),
                  mkStore
                    (map (fun q =>
                            if bill_has_id (Bill.id a) q
                            then Bill.mk (Bill.id q) (Bill.name q)
                                   (Bill.type q) (Bill.amount q)
                                   (Bill.dueDay q) (Bill.description q)
                                   (negb (Bill.active a))
                            else q) l)
                    ps n)).
    { intros l a n ps Hl Ha.
      unfold toggleBillStatus, getBillById, bill_findUnique.
      cbn [bills]. rewrite (find_bill_unique _ _ Hl Ha).
      unfold lift, updateBill, bill_update. cbn [bills payments next_id].
      rewrite (find_bill_unique _ _ Hl Ha).
      rewrite apply_bill_update_active.
      erewrite map_ext; [reflexivity |].
      intros q. cbn beta.
      destruct (bill_has_id (Bill.id a) q); [| reflexivity].
      apply apply_bill_update_active. }
    assert (Hrows : forall q, In q (bills s) ->
                      (q = b -> bill_has_id (Bill.id b) q = true)
                      /\ (q <> b -> bill_has_id (Bill.id b) q = false)).
    { intros q Hq. split.
      - intros ->. apply Nat.eqb_refl.
      - intros Hne. apply Nat.eqb_neq. intros E. apply Hne.
        eapply bill_unique_by_id; eauto. }
    destruct s as [l ps n]. cbn [bills payments] in *.
    rewrite (Hstep l b n ps Hnd Hb).
    eexists. split; [reflexivity |]. cbn [bills payments].
    split; [reflexivity |]. split.
    + clear Hstep Hnd Hb. induction l as [| q l IH]; [constructor |].
      cbn [map]. constructor.
      * destruct (Hrows q (or_introl eq_refl)) as [H1 H2]. split.
        -- intros E. rewrite (H1 E). now subst q.
        -- intros Hne. now rewrite (H2 Hne).
      * apply IH. intros q' Hq'. apply Hrows. now right.
    + set (g := fun q => if bill_has_id (Bill.id b) q
                         then Bill.mk (Bill.id q) (Bill.name q) (Bill.type q)
                                (Bill.amount q) (Bill.dueDay q)
                                (Bill.description q) (negb (Bill.active b))
                         else q).
      assert (Hids : map Bill.id (map g l) = map Bill.id l).
      { rewrite map_map. apply map_ext. intros q. subst g. cbn.
        now destruct (bill_has_id (Bill.id b) q). }
      assert (Hin : In flipped (map g l)).
      { apply in_map_iff. exists b. split; [| exact Hb].
        subst g. cbn. unfold bill_has_id. now rewrite Nat.eqb_refl. }
      pose proof (Hstep (map g l) flipped n ps) as H2.
      rewrite Hids in H2. specialize (H2 Hnd Hin).
      change (Bill.id flipped) with (Bill.id b) in H2.
      rewrite H2. cbn [snd]. f_equal.
      rewrite map_map. rewrite <- (map_id l) at 2.
      apply map_ext_in. intros q Hq. subst g. cbn beta.
      destruct (Hrows q Hq) as [H1 H3].
      destruct (bill_has_id (Bill.id b) q) eqn:E.
      * assert (q = b).
        { destruct (Bill.id q =? Bill.id b)%nat eqn:E'.
          - apply Nat.eqb_eq in E'. eapply bill_unique_by_id; eauto.
          - unfold bill_has_id in E. congruence. }
        subst q. unfold bill_has_id. cbn [Bill.id]. rewrite Nat.eqb_refl.
        cbn. rewrite negb_involutive. now destruct b.
      * now rewrite E.
Qed.

Lemma toggleBillStatus_flips_witness :
  exists s',
    toggleBillStatus 0%nat Sample.only_rent
    = (Returned (Bill.mk 0%nat "Rent" RENT 1500%float 31 None false), s')
    /\ snd (toggleBillStatus 0%nat s') = Sample.only_rent.
Proof.
  destruct (toggleBillStatus_flips Sample.only_rent) as [_ H].
  destruct (H Sample.rent) as (s' & E & _ & _ & Hback).
  - cbn. repeat constructor. intros [].
  - now left.
  - exists s'. exact (conj E Hback).
Defined.

(** X20: [getAllBills] never writes; it returns the stored bills (only the
    active ones when asked so), each once, in ascending order of due
    day. *)
Theorem getAllBills_ordered (activeOnly : bool) (s : Store) :
  exists rows,
    getAllBills activeOnly s = (Ok rows, s)
    /\ Permutation
         (if activeOnly then filter Bill.active (bills s) else bills s)
         rows
    /\ StronglySorted (fun a b => Bill.dueDay a <= Bill.dueDay b) rows.
Proof.
  unfold getAllBills, bill_findMany_asc.
  eexists. split; [reflexivity |].
  split; [| apply orderBy_asc_sorted].
  destruct activeOnly; apply orderBy_perm.
Qed.
End Bills.

(* ===================================================================== *)
(** * The constraints of the schema along a session *)
(* ===================================================================== *)

Section Integrity.
Import JSDate Prisma Queries PaymentService BillService Session.

Lemma NoDup_filter_map {A B : Type} (f : A -> B) (g : A -> bool)
  (l : list A) :
  NoDup (map f l) -> NoDup (map f (filter g l)).
Proof.
  induction l as [| a l IH]; cbn; intros H; [constructor |].
  inversion H as [| ? ? Hn Hd]; subst.
  destruct (g a); cbn; [constructor |]; auto.
  intros Hin. apply Hn. apply in_map_iff in Hin.
  destruct Hin as (x & Ex & Hx). apply filter_In in Hx.
  apply in_map_iff. exists x. tauto.
Qed.

Lemma NoDup_snoc_fresh (ids : list Id) (n : Id) :
  NoDup ids -> Forall (fun i => (i < n)%nat) ids -> NoDup (ids ++ [n]).
Proof.
  intros Hnd Hlt. induction Hnd as [| i ids Hi Hnd IH]; cbn.
  - repeat constructor. intros [].
  - inversion Hlt as [| ? ? Hin Hrest]; subst.
    constructor; [| now apply IH].
    intros Hmem. apply in_app_or in Hmem.
    destruct Hmem as [Hmem | [E | []]]; [now apply Hi | lia].
Qed.

Lemma Forall_filter {A : Type} (P : A -> Prop) (g : A -> bool)
  (l : list A) :
  Forall P l -> Forall P (filter g l).
Proof.
  intros H. apply Forall_forall. intros x Hx. apply filter_In in Hx.
  rewrite Forall_forall in H. now apply H.
Qed.

Lemma Forall_lt_map {A : Type} (f : A -> Id) (l : list A) (n : Id) :
  Forall (fun x => (f x < n)%nat) l -> Forall (fun i => (i < n)%nat) (map f l).
Proof. intros H. now apply Forall_map. Qed.

Lemma Forall_lt_S {A : Type} (f : A -> Id) (l : list A) (n : Id) :
  Forall (fun x => (f x < n)%nat) l -> Forall (fun x => (f x < S n)%nat) l.
Proof. apply Forall_impl. intros; lia. Qed.

Lemma integrity_add_payment (s : Store) (b : Bill.t) (row : Payment.t) :
  integrity s ->
  In b (bills s) -> Payment.billId row = Bill.id b ->
  Payment.id row = next_id s ->
  integrity (mkStore (bills s) (payments s ++ [row]) (S (next_id s))).
Proof.
  intros [H1 H2 H3 H4 H5] Hb Eb Eid. constructor; cbn.
  - exact H1.
  - rewrite map_app. cbn. rewrite Eid.
    apply NoDup_snoc_fresh; [exact H2 | now apply Forall_lt_map].
  - now apply Forall_lt_S.
  - apply Forall_app. split; [now apply Forall_lt_S |].
    constructor; [lia | constructor].
  - apply Forall_app. split; [exact H5 |].
    constructor; [| constructor]. rewrite Eb. now apply in_map.
Qed.

Lemma createPayment_integrity (input : CreatePaymentInput) (s : Store) :
  integrity s -> integrity (snd (createPayment input s)).
Proof.
  intros H. unfold createPayment, payment_create. cbn [c_billId].
  unfold bill_lookup.
  destruct (find _ (bills s)) as [b |] eqn:E; [| exact H].
  apply find_some in E. destruct E as [Hb E]. apply Nat.eqb_eq in E.
  cbn [snd]. eapply integrity_add_payment; eauto.
Qed.

Lemma generateMonthlyPayments_integrity (year month : Z) (s : Store) :
  integrity s -> integrity (snd (generateMonthlyPayments year month s)).
Proof.
  intros H. unfold generateMonthlyPayments, bind, bill_findMany.
  apply for_of_keeps; [| exact H].
  clear. intros acc b s H.
  unfold generate_for_bill, bind, payment_findFirst.
  destruct (find _ (payments s)); [exact H |].
  pose proof (createPayment_integrity
                (mkCreatePaymentInput (Bill.id b) (Bill.amount b)
                   (new_Date year (month - 1) (Bill.dueDay b)) None)
                s H) as Hc.
  destruct (createPayment _ s) as [[p | e] s1]; exact Hc.
Qed.

Lemma integrity_map_payments (s : Store) (g : Payment.t -> Payment.t) :
  (forall p, Payment.id (g p) = Payment.id p
             /\ Payment.billId (g p) = Payment.billId p) ->
  integrity s ->
  integrity (mkStore (bills s) (map g (payments s)) (next_id s)).
Proof.
  intros Hg [H1 H2 H3 H4 H5]. constructor; cbn; auto.
  - rewrite map_map.
    rewrite (map_ext _ Payment.id (fun p => proj1 (Hg p))). exact H2.
  - apply Forall_map. eapply Forall_impl; [| exact H4].
    intros p Hp. cbn. now rewrite (proj1 (Hg p)).
  - apply Forall_map. eapply Forall_impl; [| exact H5].
    intros p Hp. cbn. now rewrite (proj2 (Hg p)).
Qed.

Lemma updatePayment_integrity (id : Id) (input : UpdatePaymentInput)
  (s : Store) :
  integrity s -> integrity (snd (updatePayment id input s)).
Proof.
  intros H. unfold updatePayment, payment_update.
  destruct (find _ (payments s)); [| exact H].
  cbn [snd]. apply integrity_map_payments; [| exact H].
  intros p. destruct (has_id id p); split; reflexivity.
Qed.

Lemma updateOverduePayments_integrity (now : Date) (s : Store) :
  integrity s -> integrity (snd (updateOverduePayments now s)).
Proof.
  intros H. unfold updateOverduePayments, payment_updateMany.
  cbn [snd]. apply integrity_map_payments; [| exact H].
  intros p. destruct (is_stale now p); split; reflexivity.
Qed.

Lemma deletePayment_integrity (id : Id) (s : Store) :
  integrity s -> integrity (snd (deletePayment id s)).
Proof.
  intros H. unfold deletePayment, payment_delete.
  destruct (find _ (payments s)); [| exact H].
  destruct H as [H1 H2 H3 H4 H5]. constructor; cbn; auto.
  - now apply NoDup_filter_map.
  - now apply Forall_filter.
  - now apply Forall_filter.
Qed.

Lemma createBill_integrity (input : CreateBillInput) (s : Store) :
  integrity s -> integrity (snd (createBill input s)).
Proof.
  intros [H1 H2 H3 H4 H5]. unfold createBill, bill_create.
  constructor; cbn.
  - rewrite map_app. cbn.
    apply NoDup_snoc_fresh; [exact H1 | now apply Forall_lt_map].
  - exact H2.
  - apply Forall_app. split; [now apply Forall_lt_S |].
    constructor; [cbn; lia | constructor].
  - now apply Forall_lt_S.
  - eapply Forall_impl; [| exact H5].
    intros p Hp. cbn. rewrite map_app. apply in_or_app. now left.
Qed.

Lemma updateBill_integrity (id : Id) (input : UpdateBillInput) (s : Store) :
  integrity s -> integrity (snd (updateBill id input s)).
Proof.
  intros H. unfold updateBill, bill_update.
  destruct (find _ (bills s)); [| exact H].
  destruct H as [H1 H2 H3 H4 H5].
  assert (Hids : map Bill.id
                   (map (fun q => if bill_has_id id q
                                  then apply_bill_update input q else q)
                      (bills s))
                 = map Bill.id (bills s)).
  { rewrite map_map. apply map_ext. intros q.
    now destruct (bill_has_id id q). }
  constructor; cbn; auto.
  - now rewrite Hids.
  - apply Forall_map. eapply Forall_impl; [| exact H3].
    intros q Hq. cbn. now destruct (bill_has_id id q).
  - now rewrite Hids.
Qed.

Lemma deleteBill_integrity (id : Id) (s : Store) :
  integrity s -> integrity (snd (deleteBill id s)).
Proof.
  intros H. unfold deleteBill, bill_delete.
  destruct (find _ (bills s)); [| exact H].
  destruct H as [H1 H2 H3 H4 H5]. constructor; cbn.
  - now apply NoDup_filter_map.
  - now apply NoDup_filter_map.
  - now apply Forall_filter.
  - now apply Forall_filter.
  - apply Forall_forall. intros p Hp. apply filter_In in Hp.
    destruct Hp as [Hp Hne]. apply negb_true_iff, Nat.eqb_neq in Hne.
    rewrite Forall_forall in H5. specialize (H5 p Hp).
    apply in_map_iff in H5. destruct H5 as (b & Eb & Hb).
    apply in_map_iff. exists b. split; [exact Eb |].
    apply filter_In. split; [exact Hb |].
    apply negb_true_iff, Nat.eqb_neq. congruence.
Qed.

Lemma toggleBillStatus_integrity (id : Id) (s : Store) :
  integrity s -> integrity (snd (toggleBillStatus id s)).
Proof.
  intros H. unfold toggleBillStatus, getBillById, bill_findUnique.
  destruct (find (bill_has_id id) (bills s)) as [b |]; [| exact H].
  unfold lift.
  pose proof (updateBill_integrity id
                (mkBillUpdateData None None None None None
                   (Some (negb (Bill.active b)))) s H) as Hu.
  destruct (updateBill id _ s) as [[b' | e] s']; exact Hu.
Qed.

Lemma run_integrity (c : call) (s : Store) :
  integrity s -> integrity (run c s).
Proof.
  intros H. destruct c as [[] | | | | |]; cbn.
  - now apply createPayment_integrity.
  - now apply generateMonthlyPayments_integrity.
  - now apply updatePayment_integrity.
  - now apply updatePayment_integrity.
  - now apply updateOverduePayments_integrity.
  - now apply deletePayment_integrity.
  - now apply createBill_integrity.
  - now apply updateBill_integrity.
  - now apply deleteBill_integrity.
  - now apply toggleBillStatus_integrity.
Qed.

(** X22: every sequence of calls of the two services keeps the
    constraints of the schema: ids stay unique, and every stored payment
    belongs to a stored bill (no call, deleting a bill included, leaves an
    orphaned payment). *)
Theorem session_keeps_integrity (cs : list call) (s : Store) :
  integrity s -> integrity (run_all cs s).
Proof.
  unfold run_all. revert s.
  induction cs as [| c cs IH]; intros s H; [exact H |].
  cbn. apply IH. now apply run_integrity.
Qed.

Lemma session_keeps_integrity_witness :
  integrity
    (run_all
       [CreateBill (mkBillCreateData "Rent" RENT 1500%float 31 None);
        OnPayments (History.GenerateMonthlyPayments 2024 4);
        ToggleBillStatus 0%nat;
        DeleteBill 0%nat]
       (mkStore [] [] 0%nat)).
Proof.
  apply session_keeps_integrity.
  constructor; cbn; constructor.
Defined.



End Integrity.

(* ===================================================================== *)
(** * What the month prompts accept *)
(* ===================================================================== *)

Section MonthPrompt.
Import Commands.

Lemma is_digit_value (c : Ascii.ascii) :
  is_digit c = true -> 0 <= digit_value c <= 9.
Proof.
  unfold is_digit, digit_value. rewrite andb_true_iff.
  intros [H1 H2]. apply Nat.leb_le in H1, H2. lia.
Qed.

Lemma digit_char_digit (d : Z) :
  0 <= d <= 9 ->
  is_digit (digit_char d) = true /\ digit_value (digit_char d) = d.
Proof.
  intros H.
  assert (Hc : d = 0 \/ d = 1 \/ d = 2 \/ d = 3 \/ d = 4 \/ d = 5 \/ d = 6
               \/ d = 7 \/ d = 8 \/ d = 9) by lia.
  repeat (destruct Hc as [-> | Hc]; [split; reflexivity |]).
  subst d. split; reflexivity.
Qed.

(** X24: the month prompts accept exactly four digits, a dash and two
    digits, and hand over the numbers written: every year 0..9999 with
    every month number 0..99 gets through, so month numbers outside 1..12
    (00, 13, ..., 99) reach the service. *)
Theorem monthYear_prompt_range :
  (forall input year month,
      parse_monthYear input = Some (year, month) ->
      valid_monthYear input = true
      /\ 0 <= year <= 9999 /\ 0 <= month <= 99)
  /\ (forall year month,
        0 <= year <= 9999 -> 0 <= month <= 99 ->
        valid_monthYear (written_monthYear year month) = true
        /\ parse_monthYear (written_monthYear year month)
           = Some (year, month)).
Proof.
  split.
  - intros input year month. unfold parse_monthYear.
    destruct (valid_monthYear input) eqn:Ev; [| discriminate].
    unfold valid_monthYear in Ev.
    destruct (list_ascii_of_string input)
      as [| y1 [| y2 [| y3 [| y4 [| dash [| m1 [| m2 [| ? ?]]]]]]]];
      try discriminate.
    rewrite !andb_true_iff in Ev.
    destruct Ev as [[[[[[H1 H2] H3] H4] _] H5] H6].
    apply is_digit_value in H1, H2, H3, H4, H5, H6.
    intros E.
    assert (Ey : 1000 * digit_value y1 + 100 * digit_value y2
                 + 10 * digit_value y3 + digit_value y4 = year)
      by congruence.
    assert (Em : 10 * digit_value m1 + digit_value m2 = month)
      by congruence.
    split; [reflexivity | lia].
  - intros year month Hy Hm.
    destruct (digit_char_digit (year / 1000)) as [A1 B1];
      [Z.div_mod_to_equations; lia |].
    destruct (digit_char_digit (year / 100 mod 10)) as [A2 B2];
      [Z.div_mod_to_equations; lia |].
    destruct (digit_char_digit (year / 10 mod 10)) as [A3 B3];
      [Z.div_mod_to_equations; lia |].
    destruct (digit_char_digit (year mod 10)) as [A4 B4];
      [Z.div_mod_to_equations; lia |].
    destruct (digit_char_digit (month / 10)) as [A5 B5];
      [Z.div_mod_to_equations; lia |].
    destruct (digit_char_digit (month mod 10)) as [A6 B6];
      [Z.div_mod_to_equations; lia |].
    assert (Hv : valid_monthYear (written_monthYear year month) = true).
    { unfold valid_monthYear, written_monthYear.
      cbn [list_ascii_of_string].
      rewrite A1, A2, A3, A4, A5, A6. reflexivity. }
    split; [exact Hv |].
    unfold parse_monthYear. rewrite Hv.
    unfold written_monthYear. cbn [list_ascii_of_string].
    rewrite B1, B2, B3, B4, B5, B6.
    f_equal. f_equal; Z.div_mod_to_equations; lia.
Qed.

Lemma monthYear_prompt_range_witness :
  valid_monthYear "2024-13" = true
  /\ parse_monthYear "2024-13" = Some (2024, 13).
Proof.
  destruct monthYear_prompt_range as [_ H].
  exact (H 2024 13 ltac:(lia) ltac:(lia)).
Defined.
End MonthPrompt.

(* ===================================================================== *)
(** * The change cell of the comparison table *)
(* ===================================================================== *)

Section ChangeCell.
Import Display.
Local Open Scope float_scope.

Variable formatCurrency : float -> string.

Lemma ltb_leb (x y : float) : (x <? y) = true -> (x <=? y) = true.
Proof.
  rewrite ltb_spec, leb_spec. unfold SFltb, SFleb.
  destruct (SFcompare (Prim2SF x) (Prim2SF y)) as [[| |] |];
    congruence.
Qed.

Lemma leb_zero_not_ltb (x : float) :
  (0 <=? x) = true -> (0 <? x) = false ->
  exists s, Prim2SF x = S754_zero s.
Proof.
  rewrite ltb_spec, leb_spec. unfold SFltb, SFleb.
  change (Prim2SF 0) with (S754_zero false).
  destruct (Prim2SF x) as [s | [|] | | [|] m e]; cbn;
    try discriminate; eauto.
Qed.

(** X23: for every metric that [createMetric] computes, the change cell
    of a pending or overdue row has the colour of the trend arrow (red for
    up, green for down, gray for stable); it shows the amount zero when
    the trend is stable, and otherwise the size of the change with a plus
    sign exactly when the trend is up and a minus sign exactly when it is
    down.  In a total or paid row the text is the same and the colour is
    cyan unless the trend is stable. *)
Theorem change_cell_follows_trend (name : string) (values : list float) :
  let m := createMetric name values in
  let bad := formatChange formatCurrency (change m) (trend m) true in
  let neutral := formatChange formatCurrency (change m) (trend m) false in
  colour bad = colour (formatTrend (trend m))
  /\ text neutral = text bad
  /\ (trend m = stable ->
      text bad = formatCurrency 0 /\ colour neutral = gray)
  /\ (trend m = up ->
      text bad = ("+" ++ formatCurrency (abs (change m)))%string
      /\ colour neutral = cyan)
  /\ (trend m = down ->
      text bad = ("-" ++ formatCurrency (abs (change m)))%string
      /\ colour neutral = cyan).
Proof.
  cbv zeta. unfold createMetric.
  cbn [change trend].
  set (c := index values 2 - index values 1).
  destruct (abs c <? 0.01) eqn:Eabs.
  - cbn. repeat split; intros; congruence.
  - destruct (0 <? c) eqn:Epos.
    + unfold formatChange. rewrite Epos, (ltb_leb _ _ Epos). cbn.
      repeat split; intros; congruence.
    + unfold formatChange. rewrite Epos.
      destruct (0 <=? c) eqn:Ele.
      * destruct (leb_zero_not_ltb c Ele Epos) as [s Hs].
        rewrite (abs_zero_below_cent c s Hs) in Eabs. discriminate.
      * cbn. repeat split; intros; congruence.
Qed.
End ChangeCell.

(* ===================================================================== *)
(** * Generating again *)
(* ===================================================================== *)

Section Again.
Import JSDate Prisma PaymentService.

(** X25: when the due day of every active bill is a day of the target
    month (1..12), calling [generateMonthlyPayments] again for the same
    month, right away or after any number of further calls for it, returns
    the empty list and leaves the store as the first call left it. *)
Theorem generateMonthlyPayments_settles (year month : Z) (s : Store) :
  1 <= month <= 12 ->
  (forall b, In b (bills s) -> Bill.active b = true ->
             day_exists year month b) ->
  exists created s1,
    generateMonthlyPayments year month s = (Ok created, s1)
    /\ forall n : nat,
        Nat.iter n (fun s' => snd (generateMonthlyPayments year month s')) s1
        = s1
        /\ generateMonthlyPayments year month
             (Nat.iter n
                (fun s' => snd (generateMonthlyPayments year month s')) s1)
           = (Ok [], s1).
Proof.
  intros Hm Hdays.
  destruct (first_pass year month Hm (filter Bill.active (bills s)) [] s)
    as (created & s1 & E1 & Hbills & _ & Hcov).
  { intros b Hb. apply filter_In in Hb. destruct Hb. auto. }
  exists created, s1. split; [exact E1 |].
  assert (Hagain : generateMonthlyPayments year month s1 = (Ok [], s1)).
  { unfold generateMonthlyPayments, bind, bill_findMany.
    rewrite Hbills. now apply second_pass. }
  assert (Hiter : forall n,
             Nat.iter n
               (fun s' => snd (generateMonthlyPayments year month s')) s1
             = s1).
  { induction n as [| n IH]; [reflexivity |].
    now rewrite Nat.iter_succ, IH, Hagain. }
  intros n. rewrite Hiter. split; [reflexivity | exact Hagain].
Qed.

Lemma generateMonthlyPayments_settles_witness :
  exists created s1,
    generateMonthlyPayments 2024 3 one_bill = (Ok created, s1)
    /\ generateMonthlyPayments 2024 3 s1 = (Ok [], s1).
Proof.
  destruct (generateMonthlyPayments_settles 2024 3 one_bill)
    as (created & s1 & E & H).
  - lia.
  - intros b [<- | []] _. unfold day_exists. cbn. lia.
  - exists created, s1. split; [exact E |]. exact (proj2 (H 0%nat)).
Defined.
End Again.
